(** * The WebSocket game handler of the Simon game server

    A shallow embedding of the real-time room and game orchestration
    engine (the Socket.io handler module): session binding, the two-stage
    disconnect grace timers, the countdown, and the round orchestration of
    the two games.  Event handlers and timer callbacks are functions on an
    explicit world state; the registry (gameService), the game logic and
    the token verifier are interfaces the engine consumes. *)

From Stdlib Require Import ZArith.
From stdpp Require Import base option list gmap strings.

Local Open Scope string_scope.

(** ** Data model (the shared types the handler reads) *)

(** Modelled from the spec: the declarations of the shared types are not
    part of the handler module; the types below have the fields the
    handler reads and writes, with the variants the spec lists. *)
Inductive Color := red | green | blue | yellow.

(** Modelled from the spec: "status ∈ {waiting, countdown, active,
    finished}". *)
Inductive RoomStatus := waiting | countdown | active | finished.

(** Modelled from the spec: "identity, display name, host flag, connected
    flag, current connection reference". *)
Record Player := {
  p_id : string;
  p_displayName : string;
  p_isHost : bool;
  p_connected : bool;
  p_socketId : string }.

(** Modelled from the spec: the sequence variant holds the "round number,
    generated color sequence for the round, per-player state map (status ∈
    {playing, eliminated, winner}, current accepted-input index)". *)
Inductive PlayerStatus := playing | eliminated | winner.

Record SimonPlayerState := {
  ps_status : PlayerStatus;
  ps_currentInputIndex : Z }.

Record SimonGameState := {
  s_round : Z;
  s_sequence : list Color;
  s_playerStates : gmap string SimonPlayerState }.

(** Modelled from the spec: the race variant holds the "round number,
    total rounds, current target color, per-player score map, round
    winner, phase ∈ {in_round, finished}". *)
Inductive Phase := in_round | phase_finished.

Record ColorRaceGameState := {
  cr_round : Z;
  cr_totalRounds : Z;
  cr_currentColor : Color;
  cr_scores : gmap string Z;
  cr_roundWinner : option string;
  cr_phase : Phase }.

(** [room.gameState]: the [gameType] discriminator is the constructor. *)
Inductive GameState :=
  | GSimon (s : SimonGameState)
  | GColorRace (c : ColorRaceGameState).

(** Modelled from the spec: "status, ordered list of Players, optional
    GameState"; the room's code is the key it is looked up by. *)
Record Room := {
  r_status : RoomStatus;
  r_players : list Player;
  r_gameState : option GameState }.

(** The answer object [color_race:submit_answer] builds. *)
Record PlayerAnswer := {
  a_playerId : string;
  a_color : Color;
  a_timestamp : Z }.

(** What [handleAutoReconnect] takes out of a verified token. *)
Record TokenPayload := {
  tk_playerId : string;
  tk_gameCode : string;
  tk_displayName : string }.

#[global] Instance Color_eq_dec : EqDecision Color.
Proof. solve_decision. Defined.
#[global] Instance RoomStatus_eq_dec : EqDecision RoomStatus.
Proof. solve_decision. Defined.
#[global] Instance PlayerStatus_eq_dec : EqDecision PlayerStatus.
Proof. solve_decision. Defined.
#[global] Instance Phase_eq_dec : EqDecision Phase.
Proof. solve_decision. Defined.

(** ** The collaborators the engine calls *)

(** [gameService]: the room registry.  [Reg] is its whole state; a call
    that mutates it returns the new registry. *)
Class GameService (Reg : Type) := {
  getRoom : Reg -> string -> option Room;
  updateSocketId : Reg -> string -> string -> string -> Reg;
  removePlayer : Reg -> string -> string -> bool * Reg;
  updateRoomStatus : Reg -> string -> RoomStatus -> Reg;
  updateGameState : Reg -> string -> GameState -> Reg;
  markPlayerDisconnected : Reg -> string -> string -> Reg;
  removeIfStillDisconnected : Reg -> string -> string -> bool * Reg;
  cleanupDeadRooms : Reg -> Z * Reg }.

(** [utils/simonLogic]. *)
Class SimonLogic := {
  initializeSimonGame : list Player -> SimonGameState;
  validateInput : SimonGameState -> string -> Color -> Z -> bool;
  validateSequence : SimonGameState -> list Color -> bool;
  eliminatePlayer : SimonGameState -> string -> Z -> SimonGameState;
  advanceToNextRound : SimonGameState -> SimonGameState;
  shouldGameEnd : SimonGameState -> bool;
  getWinner : SimonGameState -> option string;
  updatePlayerProgress : SimonGameState -> string -> SimonGameState }.

(** [utils/colorRaceLogic]. *)
Class ColorRaceLogic := {
  initializeColorRaceGame : list Player -> ColorRaceGameState;
  processRound : ColorRaceGameState -> list PlayerAnswer -> ColorRaceGameState;
  determineWinner : ColorRaceGameState -> option string }.

(** [utils/auth]. *)
Class Auth := {
  verifyToken : string -> option TokenPayload }.

(** [PLATFORM_CONSTANTS], [COLOR_RACE_CONSTANTS], [SIMON_CONSTANTS]. *)
Class Constants := {
  DISCONNECT_BUFFER_MS : Z;
  DISCONNECT_GRACE_MS : Z;
  ROOM_CLEANUP_INTERVAL_MS : Z;
  ROUND_RESULT_DELAY_MS : Z;
  SHOW_COLOR_DURATION_MS : Z;
  SHOW_COLOR_GAP_MS : Z }.

(** ** What leaves the engine *)

Inductive Target :=
  | ToSocket (sid : string)              (* socket.emit *)
  | ToRoom (gameCode : string)           (* io.to(gameCode).emit *)
  | ToOthers (sid gameCode : string).    (* socket.to(gameCode).emit *)

Inductive Msg :=
  | MError (message : string)
  | MRoomState (room : Room)
  | MRoomStateUpdate (room : Room)
  | MPlayerJoined (player : Player)
  | MPlayerLeft (playerId : string)
  | MPlayerReconnected (playerId displayName : string)
  | MPlayerDisconnected (playerId : string) (displayName : option string)
  | MRoomClosed
  | MCountdown (count : Z)
  | MColorRaceNewRound (round : Z) (color : Color) (totalRounds : Z)
  | MColorRaceRoundResult (winnerId : option string) (winnerName : option string)
      (scores : gmap string Z)
  | MColorRaceGameFinished (winnerId winnerName : string) (finalScores : gmap string Z)
  | MSimonShowSequence (round : Z) (sequence : list Color)
  | MSimonSequenceComplete
  | MSimonInputPhase (round : Z)
  | MSimonResult (playerId playerName : string) (isCorrect : bool)
      (correctSequence : list Color)
  | MSimonPlayerEliminated (playerId playerName reason : string)
  | MSimonInputCorrect (playerId : string) (index : Z)
  | MSimonGameFinished (winnerId winnerName : string) (finalRound : Z).

Definition Emit : Type := Target * Msg.

(** ** Timers *)

(** A scheduled closure, with the variables it captured. *)
Inductive Callback :=
  | CbCleanup
  | CbCountdown (gameCode : string) (count : Z)
  | CbShowSimon (gameCode : string) (gameState : SimonGameState)
  | CbSequenceComplete (gameCode : string) (gameState : SimonGameState)
  | CbInputPhase (gameCode : string) (gameState : SimonGameState)
  | CbAdvanceSimon (gameCode : string)
  | CbEliminate (gameCode playerId : string) (gameState : SimonGameState) (room : Room)
  | CbNextRound (gameCode : string) (newState : ColorRaceGameState)
  | CbBuffer (gameCode playerId : string) (displayName : option string)
  | CbRemoval (gameCode playerId : string) (displayName : option string).

Record Timer := {
  t_delay : Z;
  t_repeat : bool;       (* setInterval rather than setTimeout *)
  t_callback : Callback }.

(** ** Sockets *)

(** [SocketWithSession]: the three optional session fields, and the
    Socket.io rooms the socket has joined. *)
Record Session := {
  playerId : option string;
  gameCode : option string;
  displayName : option string;
  joined : gset string }.

Definition noSession : Session :=
  {| playerId := None; gameCode := None; displayName := None; joined := ∅ |}.

(** ** The world: registry, module-level maps, timer queue, sockets, output *)

Record World (Reg : Type) := mkWorld {
  reg : Reg;
  disconnectTimeouts : gmap string nat;
  roundAnswers : gmap string (list PlayerAnswer);
  timers : gmap nat Timer;
  nextTimer : nat;
  sockets : gmap string Session;
  out : list Emit }.

Arguments mkWorld {Reg}.
Arguments reg {Reg}.
Arguments disconnectTimeouts {Reg}.
Arguments roundAnswers {Reg}.
Arguments timers {Reg}.
Arguments nextTimer {Reg}.
Arguments sockets {Reg}.
Arguments out {Reg}.

(** ** A state monad with exceptions

    [None] is a thrown exception; the world reached when it was thrown is
    kept, as the effects of a JavaScript function that throws are. *)
Definition M (Reg A : Type) : Type := World Reg -> option A * World Reg.

#[global] Instance M_ret {Reg} : MRet (M Reg) := fun A a w => (Some a, w).

#[global] Instance M_bind {Reg} : MBind (M Reg) := fun A B k m w =>
  match m w with
  | (Some a, w') => k a w'
  | (None, w') => (None, w')
  end.

Definition throw {Reg A} : M Reg A := fun w => (None, w).

(** [try { m } catch (error) { h }]. *)
Definition try_catch {Reg} (m h : M Reg unit) : M Reg unit :=
  fun w => match m w with
           | (Some u, w') => (Some u, w')
           | (None, w') => h w'
           end.

(** The world a handler leaves behind. *)
Definition exec {Reg A} (m : M Reg A) (w : World Reg) : World Reg := snd (m w).

(** ** JavaScript idioms *)

(** A string-or-undefined value used as a condition: [undefined] and the
    empty string are falsy. *)
Definition truthy (o : option string) : option string :=
  match o with
  | Some s => if bool_decide (s = "") then None else Some s
  | None => None
  end.

(** [x || d] on an optional string. *)
Definition or_else (o : option string) (d : string) : string :=
  default d (truthy o).

(** [players.find(p => p.id === playerId)]. *)
Definition findPlayer (players : list Player) (pid : string) : option Player :=
  find (fun p => bool_decide (p_id p = pid)) players.

(** [players.find(p => p.id === x)] where [x] may be null or undefined:
    no identifier is strictly equal to it. *)
Definition findPlayerOpt (players : list Player) (pid : option string) : option Player :=
  match pid with
  | Some i => findPlayer players i
  | None => None
  end.

(** The template string [`${gameCode}:${playerId}`]. *)
Definition timeoutKey (gameCode playerId : string) : string :=
  gameCode +:+ ":" +:+ playerId.

(** [Object.values(playerStates)]. *)
Definition playerStateValues (m : gmap string SimonPlayerState) : list SimonPlayerState :=
  (map_to_list m).*2.

Inductive GameType := simon | color_race.

Section Engine.
Context {Reg : Type}.
Context `{!GameService Reg, !SimonLogic, !ColorRaceLogic, !Auth, !Constants}.

Local Open Scope Z_scope.

(** ** Primitive effects *)

Definition emit (t : Target) (m : Msg) : M Reg unit := fun w =>
  (Some tt, mkWorld (reg w) (disconnectTimeouts w) (roundAnswers w) (timers w)
              (nextTimer w) (sockets w) (out w ++ [(t, m)])).

Definition set_reg (r : Reg) (w : World Reg) : World Reg :=
  mkWorld r (disconnectTimeouts w) (roundAnswers w) (timers w)
    (nextTimer w) (sockets w) (out w).

(** Calls of the registry.  A handler or a closure holds in [room] what
    [getRoom] returned.  Whether a later [updateSocketId] shows through
    that reference is decided by the registry, which lies outside the
    handlers; the theorems on the two rebinding handlers therefore state
    that a room is sent and to whom, not what it holds. *)
Definition gs_getRoom (code : string) : M Reg (option Room) := fun w =>
  (Some (getRoom (reg w) code), w).
Definition gs_updateSocketId (code pid sid : string) : M Reg unit := fun w =>
  (Some tt, set_reg (updateSocketId (reg w) code pid sid) w).
Definition gs_removePlayer (code pid : string) : M Reg bool := fun w =>
  (Some (removePlayer (reg w) code pid).1, set_reg (removePlayer (reg w) code pid).2 w).
Definition gs_updateRoomStatus (code : string) (s : RoomStatus) : M Reg unit := fun w =>
  (Some tt, set_reg (updateRoomStatus (reg w) code s) w).
Definition gs_updateGameState (code : string) (g : GameState) : M Reg unit := fun w =>
  (Some tt, set_reg (updateGameState (reg w) code g) w).
Definition gs_markPlayerDisconnected (code pid : string) : M Reg unit := fun w =>
  (Some tt, set_reg (markPlayerDisconnected (reg w) code pid) w).
Definition gs_removeIfStillDisconnected (code pid : string) : M Reg bool := fun w =>
  (Some (removeIfStillDisconnected (reg w) code pid).1,
   set_reg (removeIfStillDisconnected (reg w) code pid).2 w).
Definition gs_cleanupDeadRooms : M Reg Z := fun w =>
  (Some (cleanupDeadRooms (reg w)).1, set_reg (cleanupDeadRooms (reg w)).2 w).

(** The timer queue: [setTimeout]/[setInterval] return the handle. *)
Definition schedule (rep : bool) (cb : Callback) (delay : Z) : M Reg nat := fun w =>
  (Some (nextTimer w),
   mkWorld (reg w) (disconnectTimeouts w) (roundAnswers w)
     (<[nextTimer w := {| t_delay := delay; t_repeat := rep; t_callback := cb |}]> (timers w))
     (S (nextTimer w)) (sockets w) (out w)).
Definition setTimeout := schedule false.
Definition setInterval := schedule true.

Definition clearTimeout (i : nat) : M Reg unit := fun w =>
  (Some tt, mkWorld (reg w) (disconnectTimeouts w) (roundAnswers w)
              (delete i (timers w)) (nextTimer w) (sockets w) (out w)).
Definition clearInterval := clearTimeout.

(** The [count] variable an interval closure shares with its next run. *)
Definition setCount (i : nat) (code : string) (count : Z) : M Reg unit := fun w =>
  (Some tt, mkWorld (reg w) (disconnectTimeouts w) (roundAnswers w)
              (alter (fun t => {| t_delay := t_delay t; t_repeat := t_repeat t;
                                  t_callback := CbCountdown code count |}) i (timers w))
              (nextTimer w) (sockets w) (out w)).

(** The module-level [disconnectTimeouts] map. *)
Definition timeouts_get (k : string) : M Reg (option nat) := fun w =>
  (Some (disconnectTimeouts w !! k), w).
Definition timeouts_set (k : string) (i : nat) : M Reg unit := fun w =>
  (Some tt, mkWorld (reg w) (<[k := i]> (disconnectTimeouts w)) (roundAnswers w)
              (timers w) (nextTimer w) (sockets w) (out w)).
Definition timeouts_delete (k : string) : M Reg unit := fun w =>
  (Some tt, mkWorld (reg w) (delete k (disconnectTimeouts w)) (roundAnswers w)
              (timers w) (nextTimer w) (sockets w) (out w)).

(** The module-level [roundAnswers] map. *)
Definition answers_get (code : string) : M Reg (option (list PlayerAnswer)) := fun w =>
  (Some (roundAnswers w !! code), w).
Definition answers_set (code : string) (l : list PlayerAnswer) : M Reg unit := fun w =>
  (Some tt, mkWorld (reg w) (disconnectTimeouts w) (<[code := l]> (roundAnswers w))
              (timers w) (nextTimer w) (sockets w) (out w)).

(** The socket object. *)
Definition session_of (w : World Reg) (sid : string) : Session :=
  default noSession (sockets w !! sid).

Definition set_sockets (s : gmap string Session) (w : World Reg) : World Reg :=
  mkWorld (reg w) (disconnectTimeouts w) (roundAnswers w) (timers w)
    (nextTimer w) s (out w).

Definition socket_get (sid : string) : M Reg Session := fun w =>
  (Some (session_of w sid), w).

(** [socket.playerId = p; socket.gameCode = g; socket.displayName = d]. *)
Definition socket_bind (sid : string) (p g d : option string) : M Reg unit := fun w =>
  (Some tt, set_sockets (<[sid := {| playerId := p; gameCode := g; displayName := d;
                                     joined := joined (session_of w sid) |}]> (sockets w)) w).

Definition socket_join (sid code : string) : M Reg unit := fun w =>
  let s := session_of w sid in
  (Some tt, set_sockets (<[sid := {| playerId := playerId s; gameCode := gameCode s;
                                     displayName := displayName s;
                                     joined := {[code]} ∪ joined s |}]> (sockets w)) w).

Definition socket_leave (sid code : string) : M Reg unit := fun w =>
  let s := session_of w sid in
  (Some tt, set_sockets (<[sid := {| playerId := playerId s; gameCode := gameCode s;
                                     displayName := displayName s;
                                     joined := joined s ∖ {[code]} |}]> (sockets w)) w).

(** ** Auto-reconnection *)

(** [cookie] is [cookies.session] of the parsed cookie header, absent
    when there is no header or no such cookie. *)
Definition handleAutoReconnect (sid : string) (cookie : option string) : M Reg unit :=
  try_catch
    (match truthy cookie with
     | None => mret tt
     | Some token =>
       match verifyToken token with
       | None => mret tt
       | Some payload =>
         let playerId := tk_playerId payload in
         let gameCode := tk_gameCode payload in
         let displayName := tk_displayName payload in
         room ← gs_getRoom gameCode;
         match room with
         | None => mret tt
         | Some room =>
           match findPlayer (r_players room) playerId with
           | None => mret tt
           | Some player =>
             gs_updateSocketId gameCode playerId sid;;
             socket_bind sid (Some playerId) (Some gameCode) (Some displayName);;
             socket_join sid gameCode;;
             let timeoutKey := timeoutKey gameCode playerId in
             existingTimeout ← timeouts_get timeoutKey;
             match existingTimeout with
             | Some t => clearTimeout t;; timeouts_delete timeoutKey
             | None => mret tt
             end;;
             emit (ToOthers sid gameCode) (MPlayerReconnected playerId displayName);;
             emit (ToSocket sid) (MRoomState room)
           end
         end
       end
     end)
    (mret tt).

(** ** Platform event handlers *)

Definition on_join_room_socket (sid gameCode playerId : string) : M Reg unit :=
  try_catch
    (room ← gs_getRoom gameCode;
     match room with
     | None => emit (ToSocket sid) (MError "Room not found")
     | Some room =>
       match findPlayer (r_players room) playerId with
       | None => emit (ToSocket sid) (MError "Player not in room")
       | Some player =>
         gs_updateSocketId gameCode playerId sid;;
         socket_bind sid (Some playerId) (Some gameCode) (Some (p_displayName player));;
         socket_join sid gameCode;;
         emit (ToSocket sid) (MRoomState room);;
         emit (ToRoom gameCode) (MRoomStateUpdate room);;
         emit (ToOthers sid gameCode) (MPlayerJoined player)
       end
     end)
    (emit (ToSocket sid) (MError "Failed to join room")).

Definition on_leave_room (sid gameCode playerId : string) : M Reg unit :=
  try_catch
    (removed ← gs_removePlayer gameCode playerId;
     (if removed : bool then
        socket_leave sid gameCode;;
        emit (ToRoom gameCode) (MPlayerLeft playerId);;
        room ← gs_getRoom gameCode;
        match room with
        | Some room => emit (ToRoom gameCode) (MRoomStateUpdate room)
        | None => emit (ToRoom gameCode) MRoomClosed
        end
      else mret tt);;
     socket_bind sid None None None)
    (mret tt).

(** ** Countdown *)

Definition startCountdown (gameCode : string) : M Reg unit :=
  gs_updateRoomStatus gameCode countdown;;
  _ ← setInterval (CbCountdown gameCode 3) 1000;
  mret tt.

Definition on_start_game (sid gameCode playerId : string) : M Reg unit :=
  try_catch
    (room ← gs_getRoom gameCode;
     match room with
     | None => emit (ToSocket sid) (MError "Room not found")
     | Some room =>
       match findPlayer (r_players room) playerId with
       | Some {| p_isHost := true |} =>
         if bool_decide (r_status room ≠ waiting)
         then emit (ToSocket sid) (MError "Game already started")
         else startCountdown gameCode
       | _ => emit (ToSocket sid) (MError "Only host can start the game")
       end
     end)
    (emit (ToSocket sid) (MError "Failed to start game")).

(** The variant [startCountdown] starts: a constant of the source. *)
Definition gameType : GameType := simon.

(** ** Simon game logic *)

Definition showSimonSequence (gameCode : string) (gameState : SimonGameState) : M Reg unit :=
  let sequence := s_sequence gameState in
  let round := s_round gameState in
  emit (ToRoom gameCode) (MSimonShowSequence round sequence);;
  let totalTime :=
    Z.of_nat (length sequence) * (SHOW_COLOR_DURATION_MS + SHOW_COLOR_GAP_MS) in
  _ ← setTimeout (CbSequenceComplete gameCode gameState) (totalTime + 500);
  mret tt.

Definition advanceSimonRound (gameCode : string) : M Reg unit :=
  room ← gs_getRoom gameCode;
  match room with
  | None => mret tt
  | Some room =>
    if bool_decide (r_status room ≠ active) then mret tt else
    match r_gameState room with
    | Some (GSimon gameState) =>
      let newState := advanceToNextRound gameState in
      gs_updateGameState gameCode (GSimon newState);;
      showSimonSequence gameCode newState
    | _ => mret tt
    end
  end.

Definition finishSimonGame (gameCode : string) (gameState : SimonGameState) (room : Room)
  : M Reg unit :=
  let winnerId := getWinner gameState in
  let winner := findPlayerOpt (r_players room) winnerId in
  emit (ToRoom gameCode)
    (MSimonGameFinished (or_else winnerId "") (or_else (p_displayName <$> winner) "No winner")
       (s_round gameState));;
  gs_updateRoomStatus gameCode finished.

(** ** Color Race game logic *)

Definition processColorRaceRound (gameCode : string) (room : Room)
    (gameState : ColorRaceGameState) (answers : list PlayerAnswer) : M Reg unit :=
  let newState := processRound gameState answers in
  gs_updateGameState gameCode (GColorRace newState);;
  let roundWinner := findPlayerOpt (r_players room) (cr_roundWinner newState) in
  emit (ToRoom gameCode)
    (MColorRaceRoundResult (cr_roundWinner newState) (truthy (p_displayName <$> roundWinner))
       (cr_scores newState));;
  if bool_decide (cr_phase newState = phase_finished) then
    let winner := determineWinner newState in
    let winnerPlayer := findPlayerOpt (r_players room) winner in
    (* [winner!.winnerId] and [winnerPlayer!.displayName] throw a TypeError
       on null or undefined *)
    match winner, winnerPlayer with
    | Some winnerId, Some wp =>
      emit (ToRoom gameCode)
        (MColorRaceGameFinished winnerId (p_displayName wp) (cr_scores newState));;
      gs_updateRoomStatus gameCode finished
    | _, _ => throw
    end
  else
    _ ← setTimeout (CbNextRound gameCode newState) ROUND_RESULT_DELAY_MS;
    mret tt.

(** ** Game event handlers *)

(** [now] is the value of [Date.now()] when the event is handled. *)
Definition on_color_race_submit_answer (gameCode playerId : string) (color : Color)
    (now : Z) : M Reg unit :=
  try_catch
    (room ← gs_getRoom gameCode;
     match room with
     | None => mret tt
     | Some room =>
       if bool_decide (r_status room ≠ active) then mret tt else
       match r_gameState room with
       | Some (GColorRace gameState) =>
         stored ← answers_get gameCode;
         let answers := default [] stored in
         if existsb (fun a => bool_decide (a_playerId a = playerId)) answers
         then mret tt
         else
           let answer := {| a_playerId := playerId; a_color := color;
                            a_timestamp := now |} in
           let answers := (answers ++ [answer])%list in
           answers_set gameCode answers;;
           let connectedPlayers := List.filter p_connected (r_players room) in
           if (length connectedPlayers <=? length answers)%nat then
             processColorRaceRound gameCode room gameState answers;;
             answers_set gameCode []
           else mret tt
       | _ => mret tt
       end
     end)
    (mret tt).

Definition on_simon_submit_sequence (gameCode playerId : string) (sequence : list Color)
  : M Reg unit :=
  try_catch
    (room ← gs_getRoom gameCode;
     match room with
     | None => mret tt
     | Some room =>
       if bool_decide (r_status room ≠ active) then mret tt else
       match r_gameState room with
       | Some (GSimon gameState) =>
         match s_playerStates gameState !! playerId with
         | Some {| ps_status := playing |} =>
           let player := findPlayer (r_players room) playerId in
           let isCorrect := validateSequence gameState sequence in
           emit (ToRoom gameCode)
             (MSimonResult playerId (or_else (p_displayName <$> player) "Unknown")
                isCorrect (s_sequence gameState));;
           if isCorrect then
             _ ← setTimeout (CbAdvanceSimon gameCode) 2000;
             mret tt
           else
             _ ← setTimeout (CbEliminate gameCode playerId gameState room) 2000;
             mret tt
         | _ => mret tt
         end
       | _ => mret tt
       end
     end)
    (mret tt).

Definition on_simon_submit_input (gameCode playerId : string) (color : Color)
    (inputIndex : Z) : M Reg unit :=
  try_catch
    (room ← gs_getRoom gameCode;
     match room with
     | None => mret tt
     | Some room =>
       if bool_decide (r_status room ≠ active) then mret tt else
       match r_gameState room with
       | Some (GSimon gameState) =>
         match s_playerStates gameState !! playerId with
         | Some {| ps_status := playing |} =>
           let isCorrect := validateInput gameState playerId color inputIndex in
           if negb isCorrect then
             let newState := eliminatePlayer gameState playerId (s_round gameState) in
             gs_updateGameState gameCode (GSimon newState);;
             let player := findPlayer (r_players room) playerId in
             emit (ToRoom gameCode)
               (MSimonPlayerEliminated playerId
                  (or_else (p_displayName <$> player) "Unknown") "wrong_color");;
             if shouldGameEnd newState
             then finishSimonGame gameCode newState room
             else mret tt
           else
             let newState := updatePlayerProgress gameState playerId in
             gs_updateGameState gameCode (GSimon newState);;
             emit (ToRoom gameCode) (MSimonInputCorrect playerId inputIndex);;
             match s_playerStates newState !! playerId with
             | None => throw
             | Some updatedPlayerState =>
               let len := Z.of_nat (length (s_sequence newState)) in
               if len <=? ps_currentInputIndex updatedPlayerState then
                 let allComplete :=
                   forallb (fun state =>
                              bool_decide (ps_status state ≠ playing)
                              || (len <=? ps_currentInputIndex state))
                           (playerStateValues (s_playerStates newState)) in
                 if allComplete then
                   _ ← setTimeout (CbAdvanceSimon gameCode) 2000;
                   mret tt
                 else mret tt
               else mret tt
             end
         | _ => mret tt
         end
       | _ => mret tt
       end
     end)
    (mret tt).

(** ** Disconnect handling *)

Definition handleDisconnect (sid : string) : M Reg unit :=
  socket ← socket_get sid;
  match truthy (playerId socket), truthy (gameCode socket) with
  | Some playerId, Some gameCode =>
    let timeoutKey := timeoutKey gameCode playerId in
    bufferTimeout ← setTimeout (CbBuffer gameCode playerId (displayName socket))
                      DISCONNECT_BUFFER_MS;
    timeouts_set timeoutKey bufferTimeout
  | _, _ => mret tt
  end.

(** ** Timer callbacks *)

(** The body of the interval of [startCountdown]; [i] is its own handle. *)
Definition countdownTick (i : nat) (gameCode : string) (count : Z) : M Reg unit :=
  emit (ToRoom gameCode) (MCountdown count);;
  if bool_decide (count = 0) then
    clearInterval i;;
    gs_updateRoomStatus gameCode active;;
    room ← gs_getRoom gameCode;
    match room with
    | None => mret tt
    | Some room =>
      match gameType with
      | simon =>
        let gameState := initializeSimonGame (r_players room) in
        gs_updateGameState gameCode (GSimon gameState);;
        _ ← setTimeout (CbShowSimon gameCode gameState) 500;
        setCount i gameCode (count - 1)
      | color_race =>
        let gameState := initializeColorRaceGame (r_players room) in
        gs_updateGameState gameCode (GColorRace gameState);;
        emit (ToRoom gameCode)
          (MColorRaceNewRound (cr_round gameState) (cr_currentColor gameState)
             (cr_totalRounds gameState));;
        setCount i gameCode (count - 1)
      end
    end
  else setCount i gameCode (count - 1).

Definition bufferTimeoutFired (gameCode playerId : string) (displayName : option string)
  : M Reg unit :=
  gs_markPlayerDisconnected gameCode playerId;;
  emit (ToRoom gameCode) (MPlayerDisconnected playerId displayName);;
  removalTimeout ← setTimeout (CbRemoval gameCode playerId displayName) DISCONNECT_GRACE_MS;
  timeouts_set (timeoutKey gameCode playerId) removalTimeout.

Definition removalTimeoutFired (gameCode playerId : string) : M Reg unit :=
  removed ← gs_removeIfStillDisconnected gameCode playerId;
  (if removed : bool then
     emit (ToRoom gameCode) (MPlayerLeft playerId);;
     room ← gs_getRoom gameCode;
     match room with
     | Some room => emit (ToRoom gameCode) (MRoomStateUpdate room)
     | None => emit (ToRoom gameCode) MRoomClosed
     end
   else mret tt);;
  timeouts_delete (timeoutKey gameCode playerId).

Definition run_callback (i : nat) (cb : Callback) : M Reg unit :=
  match cb with
  | CbCleanup => _ ← gs_cleanupDeadRooms; mret tt
  | CbCountdown gameCode count => countdownTick i gameCode count
  | CbShowSimon gameCode gameState => showSimonSequence gameCode gameState
  | CbSequenceComplete gameCode gameState =>
    emit (ToRoom gameCode) MSimonSequenceComplete;;
    _ ← setTimeout (CbInputPhase gameCode gameState) 500;
    mret tt
  | CbInputPhase gameCode gameState =>
    emit (ToRoom gameCode) (MSimonInputPhase (s_round gameState))
  | CbAdvanceSimon gameCode => advanceSimonRound gameCode
  | CbEliminate gameCode playerId gameState room =>
    let newState := eliminatePlayer gameState playerId (s_round gameState) in
    gs_updateGameState gameCode (GSimon newState);;
    finishSimonGame gameCode newState room
  | CbNextRound gameCode newState =>
    currentRoom ← gs_getRoom gameCode;
    match currentRoom with
    | Some {| r_status := active |} =>
      emit (ToRoom gameCode)
        (MColorRaceNewRound (cr_round newState) (cr_currentColor newState)
           (cr_totalRounds newState))
    | _ => mret tt
    end
  | CbBuffer gameCode playerId displayName => bufferTimeoutFired gameCode playerId displayName
  | CbRemoval gameCode playerId _ => removalTimeoutFired gameCode playerId
  end.

(** A timer fires: a timeout leaves the queue, an interval stays until
    it is cleared.  A handle that is no longer live does nothing. *)
Definition fire (i : nat) : M Reg unit := fun w =>
  match timers w !! i with
  | None => (Some tt, w)
  | Some t =>
    ((if t_repeat t then mret tt else clearTimeout i);;
     run_callback i (t_callback t)) w
  end.

(** ** The event loop *)

Definition startCleanupInterval : M Reg unit :=
  _ ← setInterval CbCleanup ROOM_CLEANUP_INTERVAL_MS;
  mret tt.

(** The world after [initializeGameHandlers], over a given registry. *)
Definition initWorld (r : Reg) : World Reg :=
  exec startCleanupInterval
    {| reg := r; disconnectTimeouts := ∅; roundAnswers := ∅; timers := ∅;
       nextTimer := 0; sockets := ∅; out := [] |}.

Inductive Event :=
  | EvConnect (sid : string) (cookie : option string)
  | EvJoinRoomSocket (sid gameCode playerId : string)
  | EvLeaveRoom (sid gameCode playerId : string)
  | EvStartGame (sid gameCode playerId : string)
  | EvColorRaceSubmitAnswer (sid gameCode playerId : string) (color : Color) (now : Z)
  | EvSimonSubmitSequence (sid gameCode playerId : string) (sequence : list Color)
  | EvSimonSubmitInput (sid gameCode playerId : string) (color : Color) (inputIndex : Z)
  | EvDisconnect (sid : string)
  | EvTimer (i : nat).

(** A message arrives only on a socket that is connected. *)
Definition on_socket (sid : string) (m : M Reg unit) : M Reg unit := fun w =>
  match sockets w !! sid with
  | Some _ => m w
  | None => (Some tt, w)
  end.

(** A fresh socket connects: its session fields are undefined. *)
Definition on_connection (sid : string) (cookie : option string) : M Reg unit := fun w =>
  match sockets w !! sid with
  | Some _ => (Some tt, w)
  | None => handleAutoReconnect sid cookie (set_sockets (<[sid := noSession]> (sockets w)) w)
  end.

(** The socket object is gone once its disconnect handler has run. *)
Definition socket_close (sid : string) : M Reg unit := fun w =>
  (Some tt, set_sockets (delete sid (sockets w)) w).

Definition handle (ev : Event) : M Reg unit :=
  match ev with
  | EvConnect sid cookie => on_connection sid cookie
  | EvJoinRoomSocket sid gameCode playerId =>
    on_socket sid (on_join_room_socket sid gameCode playerId)
  | EvLeaveRoom sid gameCode playerId =>
    on_socket sid (on_leave_room sid gameCode playerId)
  | EvStartGame sid gameCode playerId =>
    on_socket sid (on_start_game sid gameCode playerId)
  | EvColorRaceSubmitAnswer sid gameCode playerId color now =>
    on_socket sid (on_color_race_submit_answer gameCode playerId color now)
  | EvSimonSubmitSequence sid gameCode playerId sequence =>
    on_socket sid (on_simon_submit_sequence gameCode playerId sequence)
  | EvSimonSubmitInput sid gameCode playerId color inputIndex =>
    on_socket sid (on_simon_submit_input gameCode playerId color inputIndex)
  | EvDisconnect sid =>
    on_socket sid (handleDisconnect sid;; socket_close sid)
  | EvTimer i => fire i
  end.

Definition step (w : World Reg) (ev : Event) : World Reg := exec (handle ev) w.

Definition run (w : World Reg) (evs : list Event) : World Reg := foldl step w evs.

End Engine.

(** ** Vocabulary of the properties *)

Section Vocabulary.
Context {Reg : Type}.
Context `{!GameService Reg, !SimonLogic, !ColorRaceLogic}.

Local Open Scope Z_scope.
Local Open Scope list_scope.

Definition countdownTimer (code : string) (count : Z) : Timer :=
  {| t_delay := 1000; t_repeat := true; t_callback := CbCountdown code count |}.

Definition countdownMsgs (code : string) (counts : list Z) : list Emit :=
  (fun c => (ToRoom code, MCountdown c)) <$> counts.

(** The three ways [start_game] is refused. *)
Definition start_refused (w : World Reg) (code pid : string) : Prop :=
  getRoom (reg w) code = None \/
  (exists room, getRoom (reg w) code = Some room /\
     forall player, findPlayer (r_players room) pid = Some player -> p_isHost player = false) \/
  (exists room, getRoom (reg w) code = Some room /\ r_status room <> waiting).

(** The checks both Simon submission handlers make before anything else:
    the room exists and is [active], its game state is a Simon state, and
    the submitting player's status in it is [playing]. *)
Definition simonGuard (r : Reg) (code pid : string) : option (Room * SimonGameState) :=
  match getRoom r code with
  | Some room =>
    if bool_decide (r_status room ≠ active) then None else
    match r_gameState room with
    | Some (GSimon gameState) =>
      match s_playerStates gameState !! pid with
      | Some {| ps_status := playing |} => Some (room, gameState)
      | _ => None
      end
    | _ => None
    end
  | None => None
  end.

Definition playerName (room : Room) (pid : string) : string :=
  or_else (p_displayName <$> findPlayer (r_players room) pid) "Unknown".

Definition simonFinishedMsg (gameState : SimonGameState) (room : Room) : Msg :=
  let winnerId := getWinner gameState in
  MSimonGameFinished (or_else winnerId "")
    (or_else (p_displayName <$> findPlayerOpt (r_players room) winnerId) "No winner")
    (s_round gameState).

Definition isSimonGameFinished (e : Emit) : bool :=
  match e.2 with
  | MSimonGameFinished _ _ _ => true
  | _ => false
  end.

(** The messages a step appended to the output. *)
Definition emitted (w w' : World Reg) : list Emit := drop (length (out w)) (out w').


(** What [advanceSimonRound] re-checks when it runs. *)
Definition advanceGuard (r : Reg) (code : string) : option SimonGameState :=
  match getRoom r code with
  | Some room =>
    if bool_decide (r_status room ≠ active) then None else
    match r_gameState room with
    | Some (GSimon gameState) => Some gameState
    | _ => None
    end
  | None => None
  end.

(** What the next-round callback of the race game re-checks. *)
Definition roomIsActive (r : Reg) (code : string) : bool :=
  match getRoom r code with
  | Some {| r_status := active |} => true
  | _ => false
  end.

(** The checks [color_race:submit_answer] makes before it looks at the
    answers: the room exists and is [active] and holds a race state. *)
Definition raceGuard (r : Reg) (code : string) : option (Room * ColorRaceGameState) :=
  match getRoom r code with
  | Some room =>
    if bool_decide (r_status room ≠ active) then None else
    match r_gameState room with
    | Some (GColorRace gameState) => Some (room, gameState)
    | _ => None
    end
  | None => None
  end.

(** The answers recorded for a room in the current round. *)
Definition recorded (w : World Reg) (code : string) : list PlayerAnswer :=
  default [] (roundAnswers w !! code).

Definition hasAnswered (w : World Reg) (code pid : string) : bool :=
  existsb (fun a => bool_decide (a_playerId a = pid)) (recorded w code).

Definition connectedCount (room : Room) : nat :=
  length (List.filter p_connected (r_players room)).

(** Whether [processColorRaceRound] runs to its end: on the last round
    it needs a winner who is a player of the room. *)
Definition resolutionCompletes (room : Room) (newState : ColorRaceGameState) : bool :=
  if bool_decide (cr_phase newState = phase_finished)
  then bool_decide (is_Some (findPlayerOpt (r_players room) (determineWinner newState)))
  else true.

Definition roundResultMsg (room : Room) (newState : ColorRaceGameState) : Msg :=
  MColorRaceRoundResult (cr_roundWinner newState)
    (truthy (p_displayName <$> findPlayerOpt (r_players room) (cr_roundWinner newState)))
    (cr_scores newState).

Definition isRoundResult (e : Emit) : bool :=
  match e.2 with
  | MColorRaceRoundResult _ _ _ => true
  | _ => false
  end.

End Vocabulary.

(** ** Vocabulary of the handler's conduct *)

Section Observations.
Context {Reg : Type}.
Context `{!GameService Reg, !SimonLogic, !ColorRaceLogic, !Auth, !Constants}.

Local Open Scope Z_scope.
Local Open Scope list_scope.

(** The world [w] with the messages [l] appended to its output and
    nothing else changed. *)
Definition emitting (w : World Reg) (l : list Emit) : World Reg :=
  mkWorld (reg w) (disconnectTimeouts w) (roundAnswers w) (timers w) (nextTimer w)
    (sockets w) (out w ++ l).

(** The session fields of a socket are those of player [pid] in room
    [code] under the name [name]. *)
Definition boundTo (s : Session) (pid code name : string) : Prop :=
  playerId s = Some pid /\ gameCode s = Some code /\ displayName s = Some name.

(** No player has two answers recorded for a room. *)
Definition answersDistinct (w : World Reg) : Prop :=
  forall code l, roundAnswers w !! code = Some l -> NoDup (a_playerId <$> l).

(** The callbacks of the grace period. *)
Definition isGrace (cb : Callback) : bool :=
  match cb with
  | CbBuffer _ _ _ | CbRemoval _ _ _ => true
  | _ => false
  end.

(** Handles are handed out in increasing order, and an entry of the grace
    table points at a grace timer or at a handle that is no longer live. *)
Definition handlesSound (T : gmap nat Timer) (D : gmap string nat) (n : nat) : Prop :=
  (forall i t, T !! i = Some t -> (i < n)%nat) /\
  (forall k h, D !! k = Some h ->
     (h < n)%nat /\ forall t, T !! h = Some t -> isGrace (t_callback t) = true).

Definition timersSound (w : World Reg) : Prop :=
  handlesSound (timers w) (disconnectTimeouts w) (nextTimer w).

(** The sweeper's interval, as [startCleanupInterval] schedules it. *)
Definition cleanupTimer : Timer :=
  {| t_delay := ROOM_CLEANUP_INTERVAL_MS; t_repeat := true; t_callback := CbCleanup |}.

(** The room a scheduled closure captured, if any. *)
Definition callbackRoom (cb : Callback) : option string :=
  match cb with
  | CbCleanup => None
  | CbCountdown code _ | CbShowSimon code _ | CbSequenceComplete code _
  | CbInputPhase code _ | CbAdvanceSimon code | CbEliminate code _ _ _
  | CbNextRound code _ | CbBuffer code _ _ | CbRemoval code _ _ => Some code
  end.

(** Where the messages of an event may go: [addressed sid code l] says
    every message of [l] goes to the socket [sid] alone, to the room
    [code], or to the room [code] except [sid]. *)
Definition addressed (sid code : string) (l : list Emit) : Prop :=
  Forall (fun e : Emit =>
            e.1 = ToSocket sid \/ e.1 = ToRoom code \/ e.1 = ToOthers sid code) l.

Definition toRoomOnly (code : string) (l : list Emit) : Prop :=
  Forall (fun e : Emit => e.1 = ToRoom code) l.

(** Every player still [playing] has entered the whole sequence. *)
Definition allPlayingDone (gs : SimonGameState) : Prop :=
  map_Forall (fun _ st => ps_status st = playing ->
                          Z.of_nat (length (s_sequence gs)) <= ps_currentInputIndex st)
    (s_playerStates gs).

(** The callbacks that only pace the show of a sequence or announce the
    next round. *)
Definition pacesOnly (cb : Callback) : bool :=
  match cb with
  | CbShowSimon _ _ | CbSequenceComplete _ _ | CbInputPhase _ _ | CbNextRound _ _ => true
  | _ => false
  end.

(** The text has no colon in it. *)
Fixpoint noColon (s : string) : bool :=
  match s with
  | EmptyString => true
  | String c s' => negb (bool_decide (String c EmptyString = ":")) && noColon s'
  end.

(** The room whose answers an event may write. *)
Definition answersRoom (ev : Event) : option string :=
  match ev with
  | EvColorRaceSubmitAnswer _ code _ _ _ => Some code
  | _ => None
  end.

End Observations.

(** ** The registry calls a step makes *)

(** A call of the registry that writes to it. *)
Inductive RegCall :=
  | CallUpdateSocketId (code pid sid : string)
  | CallRemovePlayer (code pid : string)
  | CallUpdateRoomStatus (code : string) (status : RoomStatus)
  | CallUpdateGameState (code : string) (g : GameState)
  | CallMarkPlayerDisconnected (code pid : string)
  | CallRemoveIfStillDisconnected (code pid : string)
  | CallCleanupDeadRooms.

Section Tracing.
Context {Reg : Type}.
Context `{!GameService Reg, !SimonLogic, !ColorRaceLogic, !Auth, !Constants}.

Local Open Scope Z_scope.
Local Open Scope list_scope.

(** The registry with a log beside it: every writing call does what the
    registry does and is noted in the log; reads are passed on. *)
Definition traced : GameService (Reg * list RegCall) := {|
  getRoom (rl : Reg * list RegCall) code := getRoom rl.1 code;
  updateSocketId rl code pid sid :=
    (updateSocketId rl.1 code pid sid, rl.2 ++ [CallUpdateSocketId code pid sid]);
  removePlayer rl code pid :=
    ((removePlayer rl.1 code pid).1,
     ((removePlayer rl.1 code pid).2, rl.2 ++ [CallRemovePlayer code pid]));
  updateRoomStatus rl code s :=
    (updateRoomStatus rl.1 code s, rl.2 ++ [CallUpdateRoomStatus code s]);
  updateGameState rl code g :=
    (updateGameState rl.1 code g, rl.2 ++ [CallUpdateGameState code g]);
  markPlayerDisconnected rl code pid :=
    (markPlayerDisconnected rl.1 code pid, rl.2 ++ [CallMarkPlayerDisconnected code pid]);
  removeIfStillDisconnected rl code pid :=
    ((removeIfStillDisconnected rl.1 code pid).1,
     ((removeIfStillDisconnected rl.1 code pid).2,
      rl.2 ++ [CallRemoveIfStillDisconnected code pid]));
  cleanupDeadRooms rl :=
    ((cleanupDeadRooms rl.1).1, ((cleanupDeadRooms rl.1).2, rl.2 ++ [CallCleanupDeadRooms]))
|}.

(** The engine over the logging registry. *)
Definition stepT (W : World (Reg * list RegCall)) (ev : Event)
  : World (Reg * list RegCall) :=
  @step _ traced _ _ _ _ W ev.

(** A world seen with an empty log, and a logged world without its log. *)
Definition observe (w : World Reg) : World (Reg * list RegCall) :=
  mkWorld (reg w, []) (disconnectTimeouts w) (roundAnswers w) (timers w) (nextTimer w)
    (sockets w) (out w).

Definition erase (W : World (Reg * list RegCall)) : World Reg :=
  mkWorld (reg W).1 (disconnectTimeouts W) (roundAnswers W) (timers W) (nextTimer W)
    (sockets W) (out W).






End Tracing.

(** ** Reference collaborators

    The handler module is the code under study; the registry, the game
    logic and the token verifier live in other modules.  The instances
    below are used to run the handlers on concrete inputs. *)
Module Demo.

Local Open Scope Z_scope.

(** Helpers of the reference registry. *)
Definition setPlayers (ps : list Player) (room : Room) : Room :=
  {| r_status := r_status room; r_players := ps; r_gameState := r_gameState room |}.

Definition rebindPlayer (pid sid : string) (p : Player) : Player :=
  if bool_decide (p_id p = pid)
  then {| p_id := p_id p; p_displayName := p_displayName p; p_isHost := p_isHost p;
          p_connected := true; p_socketId := sid |}
  else p.

Definition disconnectPlayer (pid : string) (p : Player) : Player :=
  if bool_decide (p_id p = pid)
  then {| p_id := p_id p; p_displayName := p_displayName p; p_isHost := p_isHost p;
          p_connected := false; p_socketId := p_socketId p |}
  else p.

Definition dropPlayer (code pid : string) (room : Room) (r : gmap string Room)
  : gmap string Room :=
  match List.filter (fun p => negb (bool_decide (p_id p = pid))) (r_players room) with
  | [] => delete code r
  | ps => <[code := setPlayers ps room]> r
  end.

Definition registry_removePlayer (r : gmap string Room) (code pid : string)
  : bool * gmap string Room :=
  match r !! code with
  | None => (false, r)
  | Some room =>
    match findPlayer (r_players room) pid with
    | None => (false, r)
    | Some _ => (true, dropPlayer code pid room r)
    end
  end.

Definition registry_removeIfStillDisconnected (r : gmap string Room) (code pid : string)
  : bool * gmap string Room :=
  match r !! code with
  | None => (false, r)
  | Some room =>
    match findPlayer (r_players room) pid with
    | Some p => if p_connected p then (false, r) else (true, dropPlayer code pid room r)
    | None => (false, r)
    end
  end.

Definition registry_cleanupDeadRooms (r : gmap string Room) : Z * gmap string Room :=
  let live := filter (fun kv => existsb p_connected (r_players kv.2) = true) r in
  (Z.of_nat (size r) - Z.of_nat (size live), live).

(** Modelled from the spec: the room registry, whose module is not part of
    the handler ("get room by code; add/remove player; update a player's
    connection reference; mark player connected/disconnected; update room
    status; update game state; evict rooms with no viable players").  Rooms
    are kept by code; a room that loses its last player is closed. *)
Definition service : GameService (gmap string Room) := {|
  getRoom r code := r !! code;
  updateSocketId r code pid sid :=
    alter (fun room => setPlayers (rebindPlayer pid sid <$> r_players room) room) code r;
  removePlayer := registry_removePlayer;
  updateRoomStatus r code s :=
    alter (fun room => {| r_status := s; r_players := r_players room;
                          r_gameState := r_gameState room |}) code r;
  updateGameState r code g :=
    alter (fun room => {| r_status := r_status room; r_players := r_players room;
                          r_gameState := Some g |}) code r;
  markPlayerDisconnected r code pid :=
    alter (fun room => setPlayers (disconnectPlayer pid <$> r_players room) room) code r;
  removeIfStillDisconnected := registry_removeIfStillDisconnected;
  cleanupDeadRooms := registry_cleanupDeadRooms |}.

(** Helpers of the reference game logic. *)
Definition nextColor (round : Z) : Color :=
  match round mod 4 with
  | 0 => red
  | 1 => green
  | 2 => blue
  | _ => yellow
  end.

Definition setStatus (st : PlayerStatus) (ps : SimonPlayerState) : SimonPlayerState :=
  {| ps_status := st; ps_currentInputIndex := ps_currentInputIndex ps |}.

Definition setIndex (i : Z) (ps : SimonPlayerState) : SimonPlayerState :=
  {| ps_status := ps_status ps; ps_currentInputIndex := i |}.

Definition stillPlaying (gs : SimonGameState) : list string :=
  (List.filter (fun kv : string * SimonPlayerState => bool_decide (ps_status kv.2 = playing))
     (map_to_list (s_playerStates gs))).*1.

(** Modelled from the spec: the sequence-game logic, whose module is not
    part of the handler ("initialize-state, advance-round,
    validate-submission (whole and per-step forms), eliminate-player,
    update-progress, should-end, determine-winner").  The per-step
    validator is "keyed to the player's current progress pointer"; the
    game should end when fewer than two players are still playing. *)
Definition simonLogic : SimonLogic := {|
  initializeSimonGame players :=
    {| s_round := 1; s_sequence := [red];
       s_playerStates :=
         list_to_map ((fun p => (p_id p, {| ps_status := playing;
                                            ps_currentInputIndex := 0 |})) <$> players) |};
  validateInput gs pid color idx :=
    match s_playerStates gs !! pid with
    | Some ps =>
      (0 <=? idx) && (idx =? ps_currentInputIndex ps)
      && bool_decide (s_sequence gs !! Z.to_nat idx = Some color)
    | None => false
    end;
  validateSequence gs sequence := bool_decide (sequence = s_sequence gs);
  eliminatePlayer gs pid _ :=
    {| s_round := s_round gs; s_sequence := s_sequence gs;
       s_playerStates := alter (setStatus eliminated) pid (s_playerStates gs) |};
  advanceToNextRound gs :=
    {| s_round := s_round gs + 1;
       s_sequence := s_sequence gs ++ [nextColor (s_round gs)];
       s_playerStates := setIndex 0 <$> s_playerStates gs |};
  shouldGameEnd gs := (length (stillPlaying gs) <? 2)%nat;
  getWinner gs := head (stillPlaying gs);
  updatePlayerProgress gs pid :=
    {| s_round := s_round gs; s_sequence := s_sequence gs;
       s_playerStates :=
         alter (fun ps => setIndex (ps_currentInputIndex ps + 1) ps) pid
           (s_playerStates gs) |} |}.

Definition roundWinnerOf (gs : ColorRaceGameState) (answers : list PlayerAnswer)
  : option string :=
  a_playerId <$> find (fun a => bool_decide (a_color a = cr_currentColor gs)) answers.

Definition bestScore (best : option (string * Z)) (kv : string * Z) : option (string * Z) :=
  match best with
  | Some (_, s) => if s <? kv.2 then Some kv else best
  | None => Some kv
  end.

(** Modelled from the spec: the race-game logic, whose module is not part
    of the handler (round resolution over "the full Answer list", "winner
    identity, updated scores", phase [finished] after the last round, and
    winner determination by score). *)
Definition colorRaceLogic : ColorRaceLogic := {|
  initializeColorRaceGame players :=
    {| cr_round := 1; cr_totalRounds := 2; cr_currentColor := red;
       cr_scores := list_to_map ((fun p => (p_id p, 0)) <$> players);
       cr_roundWinner := None; cr_phase := in_round |};
  processRound gs answers :=
    let w := roundWinnerOf gs answers in
    {| cr_round := cr_round gs + 1; cr_totalRounds := cr_totalRounds gs;
       cr_currentColor := nextColor (cr_round gs);
       cr_scores := match w with
                    | Some pid => alter Z.succ pid (cr_scores gs)
                    | None => cr_scores gs
                    end;
       cr_roundWinner := w;
       cr_phase := if cr_totalRounds gs <=? cr_round gs then phase_finished else in_round |};
  determineWinner gs := fst <$> foldl bestScore None (map_to_list (cr_scores gs)) |}.

(** Modelled from the spec: the session-token verifier, whose module is
    not part of the handler ("verify an inbound session token, yielding
    player/room identity or a failure"); three tokens are known. *)
Definition auth : Auth := {|
  verifyToken token :=
    if bool_decide (token = "tok-A")
    then Some {| tk_playerId := "A"; tk_gameCode := "R"; tk_displayName := "Ann" |}
    else if bool_decide (token = "tok-B")
    then Some {| tk_playerId := "B"; tk_gameCode := "R"; tk_displayName := "Bob" |}
    else if bool_decide (token = "tok-C")
    then Some {| tk_playerId := "C"; tk_gameCode := "R"; tk_displayName := "Cyd" |}
    else None |}.

(** Modelled from the spec: the delay constants of the shared types, whose
    values the handler does not fix. *)
Definition constants : Constants := {|
  DISCONNECT_BUFFER_MS := 5000;
  DISCONNECT_GRACE_MS := 60000;
  ROOM_CLEANUP_INTERVAL_MS := 60000;
  ROUND_RESULT_DELAY_MS := 3000;
  SHOW_COLOR_DURATION_MS := 600;
  SHOW_COLOR_GAP_MS := 200 |}.

Definition mkPlayer (pid name : string) (host conn : bool) : Player :=
  {| p_id := pid; p_displayName := name; p_isHost := host; p_connected := conn;
     p_socketId := "" |}.

Definition ann : Player := mkPlayer "A" "Ann" true true.
Definition bob : Player := mkPlayer "B" "Bob" false true.
Definition cyd : Player := mkPlayer "C" "Cyd" false true.

(** The engine over the reference collaborators. *)
Definition world : Type := World (gmap string Room).

Definition stepD : world -> Event -> world :=
  @step _ service simonLogic colorRaceLogic auth constants.

Definition runD (w : world) (evs : list Event) : world := foldl stepD w evs.

Definition initD (r : gmap string Room) : world :=
  @initWorld _ constants r.

(** A waiting room [R] with host Ann and guest Bob. *)
Definition lobby : gmap string Room :=
  {[ "R" := {| r_status := waiting; r_players := [ann; bob]; r_gameState := None |} ]}.

(** The same with a third player. *)
Definition lobby3 : gmap string Room :=
  {[ "R" := {| r_status := waiting; r_players := [ann; bob; cyd];
               r_gameState := None |} ]}.

(** A race game of Ann and Bob in its last round, Ann leading. *)
Definition lastRound : ColorRaceGameState :=
  {| cr_round := 2; cr_totalRounds := 2; cr_currentColor := red;
     cr_scores := {[ "A" := 1; "B" := 0 ]}; cr_roundWinner := Some "A";
     cr_phase := in_round |}.

Definition raceRoom : gmap string Room :=
  {[ "R" := {| r_status := active; r_players := [ann; bob];
               r_gameState := Some (GColorRace lastRound) |} ]}.

(** The four firings of the countdown interval, whose handle is [i]. *)
Definition countdownOf (i : nat) : list Event := replicate 4 (EvTimer i).

(** Ann has the game open in two tabs and closes both. *)
Definition twoTabsClosed : world :=
  runD (initD lobby)
    [EvConnect "s1" (Some "tok-A"); EvConnect "s2" (Some "tok-A");
     EvDisconnect "s1"; EvDisconnect "s2"].

(** Ann's connection drops and she joins again on a fresh socket, by an
    explicit join request, before the buffer timer (handle 1) fires. *)
Definition rejoined : world :=
  runD (initD lobby)
    [EvConnect "s1" (Some "tok-A"); EvDisconnect "s1";
     EvConnect "s2" None; EvJoinRoomSocket "s2" "R" "A"].

(** A Simon game of three players just after the countdown: the sequence
    has not been shown yet. *)
Definition simonStarted : world :=
  runD (initD lobby3)
    ([EvConnect "s1" (Some "tok-A"); EvConnect "s2" (Some "tok-B");
      EvConnect "s3" (Some "tok-C"); EvStartGame "s1" "R" "A"] ++ countdownOf 1).

(** Ann has entered the whole sequence of round 1, step by step. *)
Definition annCompleted : world :=
  stepD simonStarted (EvSimonSubmitInput "s1" "R" "A" red 0).

(** Ann and Bob both submit a wrong whole sequence, and Ann's delayed
    elimination (handle 3) has fired. *)
Definition twoWrong : world :=
  runD simonStarted
    [EvSimonSubmitSequence "s1" "R" "A" [blue]; EvSimonSubmitSequence "s2" "R" "B" [green];
     EvTimer 3].

(** Ann leaves the race game in its last round; Bob is the only player
    left in the room. *)
Definition annLeft : world :=
  runD (initD raceRoom)
    [EvConnect "s1" (Some "tok-A"); EvConnect "s2" (Some "tok-B");
     EvLeaveRoom "s1" "R" "A"].

Definition simonStateOf (w : world) (code : string) : option SimonGameState :=
  match reg w !! code with
  | Some {| r_gameState := Some (GSimon gs) |} => Some gs
  | _ => None
  end.

Definition statusOf (w : world) (code : string) : option RoomStatus :=
  r_status <$> reg w !! code.

Definition isInputPhase (e : Emit) : bool :=
  match e.2 with
  | MSimonInputPhase _ => true
  | _ => false
  end.

Definition isPlayerLeft (pid : string) (e : Emit) : bool :=
  match e.2 with
  | MPlayerLeft p => bool_decide (p = pid)
  | _ => false
  end.

Definition isEliminated (pid : string) (e : Emit) : bool :=
  match e.2 with
  | MSimonPlayerEliminated p _ _ => bool_decide (p = pid)
  | _ => false
  end.

(** A socket that connected without a session cookie. *)
Definition guest : world := stepD (initD lobby) (EvConnect "s1" None).

(** The host connected with her session cookie. *)
Definition hostConnected : world := stepD (initD lobby) (EvConnect "s1" (Some "tok-A")).


Definition playerStateOf (w : world) (code pid : string) : option SimonPlayerState :=
  gs ← simonStateOf w code; s_playerStates gs !! pid.


(** Ann, having completed round 1, submits one more step. *)
Definition annStepsAgain : world :=
  stepD annCompleted (EvSimonSubmitInput "s1" "R" "A" green 1).

(** Bob's delayed elimination (handle 4) fires after the game was
    finished by Ann's. *)
Definition staleFired : world := stepD twoWrong (EvTimer 4).

(** Bob answers the last round of the race game Ann has left. *)
Definition bobAnswered : world :=
  stepD annLeft (EvColorRaceSubmitAnswer "s2" "R" "B" blue 1000).

(** Both timers of Ann's grace period fire after she has joined again. *)
Definition graceElapsed : world := runD rejoined [EvTimer 1; EvTimer 2].

(** Ann's early submission of the whole sequence. *)
Definition earlySubmission : world :=
  stepD simonStarted (EvSimonSubmitSequence "s1" "R" "A" [red]).

(** Ann comes back on a third socket with her session cookie. *)
Definition backAfterTwoTabs : world :=
  stepD twoTabsClosed (EvConnect "s3" (Some "tok-A")).

(** A race game of Ann and Bob in its first round of two. *)
Definition firstRound : ColorRaceGameState :=
  {| cr_round := 1; cr_totalRounds := 2; cr_currentColor := red;
     cr_scores := {[ "A" := 0; "B" := 0 ]}; cr_roundWinner := None;
     cr_phase := in_round |}.

Definition raceRoom1 : gmap string Room :=
  {[ "R" := {| r_status := active; r_players := [ann; bob];
               r_gameState := Some (GColorRace firstRound) |} ]}.

(** Both players of a race game are connected and nobody has answered. *)
Definition raceOpen (r : gmap string Room) : world :=
  runD (initD r) [EvConnect "s1" (Some "tok-A"); EvConnect "s2" (Some "tok-B")].

(** Ann has answered; Bob's answer will complete the round. *)
Definition annAnswered (r : gmap string Room) : world :=
  stepD (raceOpen r) (EvColorRaceSubmitAnswer "s1" "R" "A" red 10).

(** The countdown of the lobby has ticked three times. *)
Definition countdownAtZero : world :=
  runD hostConnected [EvStartGame "s1" "R" "A"; EvTimer 1; EvTimer 1; EvTimer 1].

End Demo.

(** * Properties *)

(** Symbolic execution of a handler: unfold the monad and the primitive
    effects down to the world they build. *)
Ltac unfold_prims :=
  unfold exec, try_catch, mbind, M_bind, mret, M_ret, throw, emit,
    gs_getRoom, gs_updateSocketId, gs_removePlayer, gs_updateRoomStatus,
    gs_updateGameState, gs_markPlayerDisconnected, gs_removeIfStillDisconnected,
    gs_cleanupDeadRooms, setTimeout, setInterval, schedule, clearInterval,
    clearTimeout, setCount, timeouts_get, timeouts_set, timeouts_delete,
    answers_get, answers_set, socket_get, socket_bind, socket_join, socket_leave,
    socket_close, set_reg, set_sockets in *.

Ltac msimpl := unfold_prims; cbn [fst snd reg disconnectTimeouts roundAnswers timers
                                  nextTimer sockets out] in *.

Section Properties.
Context {Reg : Type}.
Context `{!GameService Reg, !SimonLogic, !ColorRaceLogic, !Auth, !Constants}.

Local Open Scope Z_scope.
Local Open Scope list_scope.

(** ** Disconnect of an unbound socket *)

(** [handleDisconnect] returns at once when either session field is
    falsy (undefined or the empty string). *)
Lemma handleDisconnect_skips (w : World Reg) (sid : string) :
  truthy (playerId (session_of w sid)) = None \/
  truthy (gameCode (session_of w sid)) = None ->
  handleDisconnect sid w = (Some tt, w).
Proof.
  intros Hno. unfold handleDisconnect. msimpl.
  destruct Hno as [-> | ->]; simpl.
  - reflexivity.
  - destruct (truthy (playerId (session_of w sid))); reflexivity.
Qed.

(** C9. A disconnect of a socket that carries no [playerId] or no
    [gameCode] leaves the whole world as it was: no entry in
    [disconnectTimeouts], no timer scheduled, no registry call, nothing
    emitted.  The disconnect event as a whole only forgets the socket. *)
Theorem handleDisconnect_unbound (w : World Reg) (sid : string) :
  playerId (session_of w sid) = None \/ gameCode (session_of w sid) = None ->
  handleDisconnect sid w = (Some tt, w) /\
  reg (step w (EvDisconnect sid)) = reg w /\
  disconnectTimeouts (step w (EvDisconnect sid)) = disconnectTimeouts w /\
  timers (step w (EvDisconnect sid)) = timers w /\
  out (step w (EvDisconnect sid)) = out w.
Proof.
  intros Hno.
  assert (Hskip : handleDisconnect sid w = (Some tt, w)).
  { apply handleDisconnect_skips. destruct Hno as [-> | ->]; auto. }
  split; [exact Hskip|].
  unfold step, exec, handle, on_socket. destruct (sockets w !! sid); [|auto].
  unfold mbind, M_bind. rewrite Hskip. cbn. auto.
Qed.

(** ** Leaving a room *)

Lemma on_leave_room_clears (w : World Reg) (sid code pid : string) :
  let w' := exec (on_leave_room sid code pid) w in
  playerId (session_of w' sid) = None /\
  gameCode (session_of w' sid) = None /\
  displayName (session_of w' sid) = None.
Proof.
  unfold on_leave_room. msimpl.
  destruct (removePlayer (reg w) code pid).1; [destruct (getRoom _ code)|];
    cbn; unfold session_of; cbn; rewrite lookup_insert_eq; auto.
Qed.

Lemma on_leave_room_not_removed (w : World Reg) (sid code pid : string) :
  (removePlayer (reg w) code pid).1 = false ->
  let w' := exec (on_leave_room sid code pid) w in
  out w' = out w /\ reg w' = (removePlayer (reg w) code pid).2 /\
  timers w' = timers w /\ disconnectTimeouts w' = disconnectTimeouts w.
Proof.
  intros Hf. unfold on_leave_room. msimpl. rewrite Hf. cbn. auto.
Qed.

(** C10. The leave-room handler always ends with the three session fields
    of the socket undefined; when the registry did not remove the player
    nothing is emitted (and no timer or timeout entry is touched); and a
    disconnect of that socket right after is a no-op, so it starts no
    grace timer. *)
Theorem leave_room_clears_session (w : World Reg) (sid code pid : string) :
  let w' := exec (on_leave_room sid code pid) w in
  (playerId (session_of w' sid) = None /\
   gameCode (session_of w' sid) = None /\
   displayName (session_of w' sid) = None) /\
  ((removePlayer (reg w) code pid).1 = false ->
   out w' = out w /\ timers w' = timers w /\
   disconnectTimeouts w' = disconnectTimeouts w) /\
  handleDisconnect sid w' = (Some tt, w').
Proof.
  intros w'. pose proof (on_leave_room_clears w sid code pid) as Hc.
  cbv zeta in Hc. fold w' in Hc. split; [exact Hc|]. split.
  - intros Hf. destruct (on_leave_room_not_removed w sid code pid Hf) as (?&?&?&?).
    auto.
  - apply handleDisconnect_skips. left. destruct Hc as [-> _]. reflexivity.
Qed.

(** ** Starting a game *)

Lemma on_start_game_accepted (w : World Reg) (sid code pid : string) room player :
  getRoom (reg w) code = Some room ->
  findPlayer (r_players room) pid = Some player ->
  p_isHost player = true ->
  r_status room = waiting ->
  on_start_game sid code pid w =
    (Some tt,
     mkWorld (updateRoomStatus (reg w) code countdown) (disconnectTimeouts w)
       (roundAnswers w) (<[nextTimer w := countdownTimer code 3]> (timers w))
       (S (nextTimer w)) (sockets w) (out w)).
Proof.
  intros Hroom Hfind Hhost Hst. unfold on_start_game, startCountdown. msimpl.
  rewrite Hroom, Hfind. destruct player as [? ? host ? ?]; simpl in Hhost; subst host.
  rewrite bool_decide_false by (rewrite Hst; intros Hne; apply Hne; reflexivity).
  reflexivity.
Qed.

Lemma on_start_game_refused (w : World Reg) (sid code pid : string) :
  start_refused w code pid ->
  exists message,
    on_start_game sid code pid w =
      (Some tt,
       mkWorld (reg w) (disconnectTimeouts w) (roundAnswers w) (timers w)
         (nextTimer w) (sockets w) (out w ++ [(ToSocket sid, MError message)])).
Proof.
  unfold on_start_game, startCountdown. msimpl.
  intros [Hnone | [(room & Hroom & Hhost) | (room & Hroom & Hst)]].
  - rewrite Hnone. eauto.
  - rewrite Hroom. destruct (findPlayer (r_players room) pid) as [[? ? host ? ?]|]; eauto.
    specialize (Hhost _ eq_refl). simpl in Hhost. subst host. eauto.
  - rewrite Hroom. destruct (findPlayer (r_players room) pid) as [[? ? [] ? ?]|]; eauto.
    rewrite bool_decide_true by assumption. eauto.
Qed.

(** One firing of the countdown interval above zero. *)
Lemma fire_countdown_tick (w : World Reg) (i : nat) code count :
  timers w !! i = Some (countdownTimer code count) ->
  count <> 0 ->
  fire i w =
    (Some tt,
     mkWorld (reg w) (disconnectTimeouts w) (roundAnswers w)
       (<[i := countdownTimer code (count - 1)]> (timers w))
       (nextTimer w) (sockets w) (out w ++ [(ToRoom code, MCountdown count)])).
Proof.
  intros Hi Hc. unfold fire. rewrite Hi. cbn [t_repeat t_callback countdownTimer].
  unfold run_callback, countdownTick. msimpl.
  rewrite bool_decide_false by assumption. cbn.
  do 3 f_equal. apply map_eq. intros j. destruct (decide (i = j)) as [<-|Hne].
  - rewrite lookup_alter_eq, lookup_insert_eq, Hi. reflexivity.
  - rewrite lookup_alter_ne, lookup_insert_ne by assumption. reflexivity.
Qed.

(** The firing at zero. *)
Lemma fire_countdown_zero (w : World Reg) (i : nat) code :
  timers w !! i = Some (countdownTimer code 0) ->
  (i < nextTimer w)%nat ->
  let r2 := updateRoomStatus (reg w) code active in
  let w' := exec (fire i) w in
  out w' = out w ++ [(ToRoom code, MCountdown 0)] /\
  timers w' !! i = None /\
  match getRoom r2 code with
  | Some room =>
    let gameState := initializeSimonGame (r_players room) in
    reg w' = updateGameState r2 code (GSimon gameState) /\
    timers w' !! nextTimer w =
      Some {| t_delay := 500; t_repeat := false;
              t_callback := CbShowSimon code gameState |}
  | None => reg w' = r2 /\ timers w' = delete i (timers w)
  end.
Proof.
  intros Hi Hlt r2. unfold exec, fire. rewrite Hi. cbn [t_repeat t_callback countdownTimer].
  unfold run_callback, countdownTick. msimpl.
  rewrite bool_decide_true by reflexivity. cbv beta. cbn [reg]. fold r2.
  destruct (getRoom r2 code) as [room|] eqn:Hroom; cbn.
  - split; [reflexivity|]. split; [|split; [reflexivity|]].
    + rewrite lookup_alter_eq, lookup_insert_ne, lookup_delete_eq by lia. reflexivity.
    + rewrite lookup_alter_ne, lookup_insert_eq by lia. reflexivity.
  - split; [reflexivity|]. rewrite lookup_delete_eq. auto.
Qed.

Lemma run_snoc (w : World Reg) (evs : list Event) (ev : Event) :
  run w (evs ++ [ev]) = step (run w evs) ev.
Proof. unfold run. apply foldl_snoc. Qed.

Lemma countdown_ticks (w : World Reg) (sid code pid : string) room player (n : nat) :
  getRoom (reg w) code = Some room ->
  findPlayer (r_players room) pid = Some player ->
  p_isHost player = true ->
  r_status room = waiting ->
  (n <= 3)%nat ->
  run (exec (on_start_game sid code pid) w) (replicate n (EvTimer (nextTimer w))) =
    mkWorld (updateRoomStatus (reg w) code countdown) (disconnectTimeouts w)
      (roundAnswers w)
      (<[nextTimer w := countdownTimer code (3 - Z.of_nat n)]> (timers w))
      (S (nextTimer w)) (sockets w)
      (out w ++ countdownMsgs code (take n [3; 2; 1; 0])).
Proof.
  intros Hroom Hfind Hhost Hst. induction n as [|n IH]; intros Hn.
  - unfold exec. rewrite (on_start_game_accepted w sid code pid room player) by assumption.
    cbn. rewrite app_nil_r. reflexivity.
  - rewrite replicate_S_end, run_snoc, IH by lia.
    unfold step, exec, handle.
    erewrite fire_countdown_tick;
      [|cbn [timers]; apply lookup_insert_eq | lia].
    cbn [snd reg disconnectTimeouts roundAnswers timers nextTimer sockets out].
    rewrite insert_insert_eq, <- app_assoc.
    replace (3 - Z.of_nat n - 1) with (3 - Z.of_nat (S n)) by lia.
    do 2 f_equal.
    destruct n as [|[|[|n]]]; [reflexivity..|lia].
Qed.

(** C8. [start_game] by the host of an existing room that is [waiting]
    sets the status to [countdown] and starts an interval of 1000 ms; its
    first four firings emit the counts 3, 2, 1, 0 to the room, the status
    staying [countdown] until the fourth, which clears the interval, sets
    the status to [active] and (the room being still there) persists the
    state the initializer builds from the room's players.  When the room
    is absent, the player is not the host or the status is not [waiting],
    the only effect is one error notice to the requesting socket. *)
Theorem start_game_countdown (w : World Reg) (sid code pid : string) :
  let i := nextTimer w in
  let w0 := exec (on_start_game sid code pid) w in
  let after n := run w0 (replicate n (EvTimer i)) in
  let r1 := updateRoomStatus (reg w) code countdown in
  let r2 := updateRoomStatus r1 code active in
  (forall room player,
     getRoom (reg w) code = Some room ->
     findPlayer (r_players room) pid = Some player ->
     p_isHost player = true ->
     r_status room = waiting ->
     (forall n, (n <= 3)%nat ->
        reg (after n) = r1 /\
        out (after n) = out w ++ countdownMsgs code (take n [3; 2; 1; 0]) /\
        timers (after n) !! i = Some (countdownTimer code (3 - Z.of_nat n))) /\
     out (after 4%nat) = out w ++ countdownMsgs code [3; 2; 1; 0] /\
     timers (after 4%nat) !! i = None /\
     reg (after 4%nat) =
       match getRoom r2 code with
       | Some room' =>
         updateGameState r2 code (GSimon (initializeSimonGame (r_players room')))
       | None => r2
       end) /\
  (start_refused w code pid ->
   exists message,
     w0 = mkWorld (reg w) (disconnectTimeouts w) (roundAnswers w) (timers w)
            (nextTimer w) (sockets w) (out w ++ [(ToSocket sid, MError message)])).
Proof.
  intros i w0 after r1 r2. split.
  - intros room player Hroom Hfind Hhost Hst.
    pose proof (countdown_ticks w sid code pid room player) as Hticks.
    split.
    + intros n Hn. unfold after, w0, i. rewrite (Hticks n) by assumption.
      cbn [reg out timers]. rewrite lookup_insert_eq. auto.
    + unfold after. change 4%nat with (S 3). rewrite replicate_S_end, run_snoc.
      unfold w0, i. rewrite (Hticks 3%nat) by (assumption || lia).
      match goal with |- context [step ?W _] => set (w3 := W) end.
      pose proof (fire_countdown_zero w3 (nextTimer w) code) as Hz.
      unfold step, handle. cbv zeta in Hz.
      destruct Hz as (Hout & Htm & Hreg).
      { unfold w3. cbn [timers]. apply lookup_insert_eq. }
      { unfold w3. cbn [nextTimer]. lia. }
      rewrite Hout, Htm. unfold w3 at 1. cbn [out]. rewrite <- app_assoc.
      split; [reflexivity|]. split; [reflexivity|].
      unfold w3 in Hreg. cbn [reg] in Hreg. fold r1 r2 in Hreg.
      fold w3 in Hreg. destruct (getRoom r2 code); tauto.
  - intros Href. destruct (on_start_game_refused w sid code pid Href) as [message Hm].
    exists message. unfold w0, exec. rewrite Hm. reflexivity.
Qed.

(** ** Sequence game: submissions *)

Lemma simon_submit_sequence_refused (w : World Reg) code pid sequence :
  simonGuard (reg w) code pid = None ->
  on_simon_submit_sequence code pid sequence w = (Some tt, w).
Proof.
  unfold simonGuard, on_simon_submit_sequence. msimpl. intros Hg.
  destruct (getRoom (reg w) code) as [room|]; [|reflexivity].
  destruct (bool_decide (r_status room ≠ active)); [reflexivity|].
  destruct (r_gameState room) as [[gs|?]|]; try reflexivity.
  destruct (s_playerStates gs !! pid) as [[[] ?]|]; try reflexivity. discriminate.
Qed.

Lemma simon_submit_sequence_accepted (w : World Reg) code pid sequence room gs :
  simonGuard (reg w) code pid = Some (room, gs) ->
  on_simon_submit_sequence code pid sequence w =
    (Some tt,
     mkWorld (reg w) (disconnectTimeouts w) (roundAnswers w)
       (<[nextTimer w :=
            {| t_delay := 2000; t_repeat := false;
               t_callback := if validateSequence gs sequence
                             then CbAdvanceSimon code
                             else CbEliminate code pid gs room |}]> (timers w))
       (S (nextTimer w)) (sockets w)
       (out w ++ [(ToRoom code,
                   MSimonResult pid (playerName room pid) (validateSequence gs sequence)
                     (s_sequence gs))])).
Proof.
  unfold simonGuard, on_simon_submit_sequence. msimpl. intros Hg.
  destruct (getRoom (reg w) code) as [room'|]; [|discriminate].
  destruct (bool_decide (r_status room' ≠ active)); [discriminate|].
  destruct (r_gameState room') as [[gs'|?]|]; try discriminate.
  destruct (s_playerStates gs' !! pid) as [[[] ?]|]; try discriminate.
  injection Hg as -> ->. unfold playerName.
  destruct (validateSequence gs sequence); reflexivity.
Qed.

Lemma simon_submit_input_refused (w : World Reg) code pid color idx :
  simonGuard (reg w) code pid = None ->
  on_simon_submit_input code pid color idx w = (Some tt, w).
Proof.
  unfold simonGuard, on_simon_submit_input. msimpl. intros Hg.
  destruct (getRoom (reg w) code) as [room|]; [|reflexivity].
  destruct (bool_decide (r_status room ≠ active)); [reflexivity|].
  destruct (r_gameState room) as [[gs|?]|]; try reflexivity.
  destruct (s_playerStates gs !! pid) as [[[] ?]|]; try reflexivity. discriminate.
Qed.

(** A wrong step: the player is eliminated at once, and the game is
    finished exactly when [shouldGameEnd] holds of the new state. *)
Lemma simon_submit_input_wrong (w : World Reg) code pid color idx room gs :
  simonGuard (reg w) code pid = Some (room, gs) ->
  validateInput gs pid color idx = false ->
  let newState := eliminatePlayer gs pid (s_round gs) in
  let eliminatedMsg :=
    (ToRoom code, MSimonPlayerEliminated pid (playerName room pid) "wrong_color") in
  on_simon_submit_input code pid color idx w =
    (Some tt,
     if shouldGameEnd newState then
       mkWorld (updateRoomStatus (updateGameState (reg w) code (GSimon newState))
                  code finished)
         (disconnectTimeouts w) (roundAnswers w) (timers w) (nextTimer w) (sockets w)
         (out w ++ [eliminatedMsg; (ToRoom code, simonFinishedMsg newState room)])
     else
       mkWorld (updateGameState (reg w) code (GSimon newState))
         (disconnectTimeouts w) (roundAnswers w) (timers w) (nextTimer w) (sockets w)
         (out w ++ [eliminatedMsg])).
Proof.
  unfold simonGuard, on_simon_submit_input, finishSimonGame. msimpl. intros Hg Hv.
  destruct (getRoom (reg w) code) as [room'|]; [|discriminate].
  destruct (bool_decide (r_status room' ≠ active)); [discriminate|].
  destruct (r_gameState room') as [[gs'|?]|]; try discriminate.
  destruct (s_playerStates gs' !! pid) as [[[] ?]|]; try discriminate.
  injection Hg as -> ->. rewrite Hv. cbn.
  destruct (shouldGameEnd _); cbn; [rewrite <- app_assoc|]; reflexivity.
Qed.

(** A right step: progress is recorded and acknowledged; nobody is
    eliminated and the game is not finished. *)
Lemma simon_submit_input_right (w : World Reg) code pid color idx room gs :
  simonGuard (reg w) code pid = Some (room, gs) ->
  validateInput gs pid color idx = true ->
  let w' := exec (on_simon_submit_input code pid color idx) w in
  reg w' = updateGameState (reg w) code (GSimon (updatePlayerProgress gs pid)) /\
  out w' = out w ++ [(ToRoom code, MSimonInputCorrect pid idx)].
Proof.
  unfold simonGuard, on_simon_submit_input. msimpl. intros Hg Hv.
  destruct (getRoom (reg w) code) as [room'|]; [|discriminate].
  destruct (bool_decide (r_status room' ≠ active)); [discriminate|].
  destruct (r_gameState room') as [[gs'|?]|]; try discriminate.
  destruct (s_playerStates gs' !! pid) as [[[] ?]|]; try discriminate.
  injection Hg as -> ->. rewrite Hv. cbn.
  destruct (s_playerStates (updatePlayerProgress gs pid) !! pid) as [ups|]; cbn; [|auto].
  destruct (_ <=? ps_currentInputIndex ups); cbn; [|auto].
  destruct (forallb _ _); cbn; auto.
Qed.


(** ** What a step emits *)

Lemma emitted_app (w w' : World Reg) (l : list Emit) :
  out w' = out w ++ l -> emitted w w' = l.
Proof. unfold emitted. intros ->. apply drop_app_length. Qed.


(** Run a handler through all its branches, leaving the output in the
    form [out w ++ l]. *)
Ltac simpl_world :=
  cbn [fst snd reg disconnectTimeouts roundAnswers timers nextTimer sockets out];
  cbv beta.

Ltac branches :=
  repeat (simpl_world;
          match goal with
          | |- context [match ?x with _ => _ end] =>
            lazymatch x with
            | context [out _] => fail
            | _ => destruct x eqn:?
            end
          end);
  simpl_world.



(** C4 (as amended). A Simon submission is accepted exactly when the room
    exists and is [active], its game state is a Simon state and the
    submitting player is [playing]; nothing else is consulted, neither the
    output so far nor the pending timers.  When the checks fail the
    submission changes nothing and emits nothing; when they pass, a
    whole-sequence submission is validated and its result broadcast. *)
Theorem simon_submission_gate (w : World Reg) (code pid : string) :
  (simonGuard (reg w) code pid = None ->
   forall sequence color idx,
     on_simon_submit_sequence code pid sequence w = (Some tt, w) /\
     on_simon_submit_input code pid color idx w = (Some tt, w)) /\
  (forall room gs,
     simonGuard (reg w) code pid = Some (room, gs) ->
     (forall sequence,
        let w' := exec (on_simon_submit_sequence code pid sequence) w in
        emitted w w' =
          [(ToRoom code,
            MSimonResult pid (playerName room pid) (validateSequence gs sequence)
              (s_sequence gs))] /\
        timers w' !! nextTimer w =
          Some {| t_delay := 2000; t_repeat := false;
                  t_callback := if validateSequence gs sequence
                                then CbAdvanceSimon code
                                else CbEliminate code pid gs room |}) /\
     (forall color idx,
        let w' := exec (on_simon_submit_input code pid color idx) w in
        head (emitted w w') =
          Some (ToRoom code,
                if validateInput gs pid color idx
                then MSimonInputCorrect pid idx
                else MSimonPlayerEliminated pid (playerName room pid) "wrong_color"))).
Proof.
  split.
  - intros Hg sequence color idx. split.
    + apply simon_submit_sequence_refused, Hg.
    + apply simon_submit_input_refused, Hg.
  - intros room gs Hg. split.
    + intros sequence w'. unfold w', exec.
      rewrite (simon_submit_sequence_accepted _ _ _ _ _ _ Hg). cbn [snd timers]. split.
      * apply emitted_app. reflexivity.
      * apply lookup_insert_eq.
    + intros color idx w'. destruct (validateInput gs pid color idx) eqn:Hv.
      * destruct (simon_submit_input_right _ _ _ _ _ _ _ Hg Hv) as [_ Hout].
        unfold w'. rewrite (emitted_app _ _ _ Hout). reflexivity.
      * unfold w', exec. rewrite (simon_submit_input_wrong _ _ _ _ _ _ _ Hg Hv).
        destruct (shouldGameEnd _); cbn [snd];
          erewrite emitted_app by reflexivity; reflexivity.
Qed.

(** C6 (as amended). For a player who is [playing] and whose progress
    pointer has reached the sequence length, a further step is handled as
    any other: the handler does not look at the pointer.  If the step
    validator rejects it the player is eliminated and the elimination is
    broadcast; if the validator accepts it nobody is eliminated and the
    pointer is advanced once more. *)
Theorem completed_player_step (w : World Reg) code pid color idx room gs ps :
  simonGuard (reg w) code pid = Some (room, gs) ->
  s_playerStates gs !! pid = Some ps ->
  Z.of_nat (length (s_sequence gs)) <= ps_currentInputIndex ps ->
  let w' := exec (on_simon_submit_input code pid color idx) w in
  (validateInput gs pid color idx = false ->
   head (emitted w w') =
     Some (ToRoom code, MSimonPlayerEliminated pid (playerName room pid) "wrong_color") /\
   (reg w' = updateGameState (reg w) code (GSimon (eliminatePlayer gs pid (s_round gs))) \/
    reg w' = updateRoomStatus
               (updateGameState (reg w) code (GSimon (eliminatePlayer gs pid (s_round gs))))
               code finished)) /\
  (validateInput gs pid color idx = true ->
   emitted w w' = [(ToRoom code, MSimonInputCorrect pid idx)] /\
   reg w' = updateGameState (reg w) code (GSimon (updatePlayerProgress gs pid))).
Proof.
  intros Hg _ _ w'. split; intros Hv.
  - unfold w', exec. rewrite (simon_submit_input_wrong _ _ _ _ _ _ _ Hg Hv).
    destruct (shouldGameEnd _); cbn [snd reg].
    + split; [erewrite emitted_app by reflexivity; reflexivity | right; reflexivity].
    + split; [erewrite emitted_app by reflexivity; reflexivity | left; reflexivity].
  - destruct (simon_submit_input_right _ _ _ _ _ _ _ Hg Hv) as [Hreg Hout].
    split; [apply emitted_app, Hout | exact Hreg].
Qed.

(** ** Delayed callbacks *)

(** X24. Two delayed callbacks re-fetch the room before
    acting.  The round advance of the Simon game does nothing unless the
    room exists, is [active] and holds a Simon state, and then advances
    the state it has just fetched.  The next-round callback of the race
    game does nothing unless the room exists and is [active], and then
    broadcasts the round parameters it captured when it was scheduled. *)
Theorem refetching_callbacks (w : World Reg) (i : nat) (code : string) :
  (advanceGuard (reg w) code = None ->
   run_callback i (CbAdvanceSimon code) w = (Some tt, w)) /\
  (forall gs,
     advanceGuard (reg w) code = Some gs ->
     let newState := advanceToNextRound gs in
     let w' := exec (run_callback i (CbAdvanceSimon code)) w in
     reg w' = updateGameState (reg w) code (GSimon newState) /\
     emitted w w' =
       [(ToRoom code, MSimonShowSequence (s_round newState) (s_sequence newState))]) /\
  (forall newState,
     roomIsActive (reg w) code = false ->
     run_callback i (CbNextRound code newState) w = (Some tt, w)) /\
  (forall newState,
     roomIsActive (reg w) code = true ->
     run_callback i (CbNextRound code newState) w =
       (Some tt,
        mkWorld (reg w) (disconnectTimeouts w) (roundAnswers w) (timers w) (nextTimer w)
          (sockets w)
          (out w ++ [(ToRoom code,
                      MColorRaceNewRound (cr_round newState) (cr_currentColor newState)
                        (cr_totalRounds newState))]))).
Proof.
  unfold advanceGuard, roomIsActive, run_callback, advanceSimonRound, showSimonSequence.
  msimpl. split; [|split; [|split]].
  - intros Hg. destruct (getRoom (reg w) code) as [room|]; [|reflexivity].
    destruct (bool_decide (r_status room ≠ active)); [reflexivity|].
    destruct (r_gameState room) as [[gs|?]|]; try reflexivity. discriminate.
  - intros gs Hg. destruct (getRoom (reg w) code) as [room|]; [|discriminate].
    destruct (bool_decide (r_status room ≠ active)); [discriminate|].
    destruct (r_gameState room) as [[gs'|?]|]; try discriminate.
    injection Hg as ->. split; [reflexivity|]. apply emitted_app. reflexivity.
  - intros newState Hact.
    destruct (getRoom (reg w) code) as [[[] ? ?]|]; try reflexivity. discriminate.
  - intros newState Hact.
    destruct (getRoom (reg w) code) as [[[] ? ?]|]; try discriminate. reflexivity.
Qed.

(** ** Race game: collecting answers *)

Lemma race_submit_refused (w : World Reg) code pid color now :
  raceGuard (reg w) code = None ->
  on_color_race_submit_answer code pid color now w = (Some tt, w).
Proof.
  unfold raceGuard, on_color_race_submit_answer. msimpl. intros Hg.
  destruct (getRoom (reg w) code) as [room|]; [|reflexivity].
  destruct (bool_decide (r_status room ≠ active)); [reflexivity|].
  destruct (r_gameState room) as [[?|gs]|]; try reflexivity. discriminate.
Qed.

(** A second answer of the same player in a round changes nothing. *)
Lemma race_submit_duplicate (w : World Reg) code pid color now :
  hasAnswered w code pid = true ->
  on_color_race_submit_answer code pid color now w = (Some tt, w).
Proof.
  unfold hasAnswered, recorded, on_color_race_submit_answer. msimpl. intros Hdup.
  destruct (getRoom (reg w) code) as [room|]; [|reflexivity].
  destruct (bool_decide (r_status room ≠ active)); [reflexivity|].
  destruct (r_gameState room) as [[?|gs]|]; try reflexivity.
  rewrite Hdup. reflexivity.
Qed.

(** A first answer that does not complete the round is only recorded. *)
Lemma race_submit_recorded (w : World Reg) code pid color now room gs :
  raceGuard (reg w) code = Some (room, gs) ->
  hasAnswered w code pid = false ->
  (length (recorded w code) + 1 < connectedCount room)%nat ->
  on_color_race_submit_answer code pid color now w =
    (Some tt,
     mkWorld (reg w) (disconnectTimeouts w)
       (<[code := recorded w code ++
                  [{| a_playerId := pid; a_color := color; a_timestamp := now |}]]>
          (roundAnswers w))
       (timers w) (nextTimer w) (sockets w) (out w)).
Proof.
  unfold raceGuard, hasAnswered, recorded, connectedCount, on_color_race_submit_answer.
  msimpl. intros Hg Hdup Hlt.
  destruct (getRoom (reg w) code) as [room'|]; [|discriminate].
  destruct (bool_decide (r_status room' ≠ active)); [discriminate|].
  destruct (r_gameState room') as [[?|gs']|]; try discriminate.
  injection Hg as -> ->. rewrite Hdup.
  rewrite (proj2 (Nat.leb_gt _ _)) by (rewrite length_app; cbn; lia).
  reflexivity.
Qed.

(** A first answer that brings the count to the number of connected
    players resolves the round, once, on all the answers; the list is
    emptied if the resolution runs to its end and kept if it throws. *)
Lemma race_submit_resolves (w : World Reg) code pid color now room gs :
  raceGuard (reg w) code = Some (room, gs) ->
  hasAnswered w code pid = false ->
  (connectedCount room <= length (recorded w code) + 1)%nat ->
  let answers :=
    recorded w code ++ [{| a_playerId := pid; a_color := color; a_timestamp := now |}] in
  let newState := processRound gs answers in
  let w' := exec (on_color_race_submit_answer code pid color now) w in
  head (emitted w w') = Some (ToRoom code, roundResultMsg room newState) /\
  length (List.filter isRoundResult (emitted w w')) = 1%nat /\
  roundAnswers w' !! code =
    Some (if resolutionCompletes room newState then [] else answers).
Proof.
  unfold raceGuard, hasAnswered, recorded, connectedCount, resolutionCompletes,
    on_color_race_submit_answer, processColorRaceRound, roundResultMsg.
  msimpl. intros Hg Hdup Hle.
  destruct (getRoom (reg w) code) as [room'|]; [|discriminate].
  destruct (bool_decide (r_status room' ≠ active)); [discriminate|].
  destruct (r_gameState room') as [[?|gs']|]; try discriminate.
  injection Hg as -> ->. rewrite Hdup.
  rewrite (proj2 (Nat.leb_le _ _)) by (rewrite length_app; cbn; lia).
  simpl_world.
  set (answers := default [] (roundAnswers w !! code) ++ _).
  set (newState := processRound gs answers).
  destruct (bool_decide (cr_phase newState = phase_finished)) eqn:Hph.
  - destruct (determineWinner newState) as [wid|] eqn:Hwin; cbn [findPlayerOpt].
    + destruct (findPlayer (r_players room) wid) as [wp|] eqn:Hwp; simpl_world.
      * erewrite emitted_app by (simpl_world; rewrite <- ?app_assoc; reflexivity).
        rewrite bool_decide_true by eauto.
        rewrite lookup_insert_eq. auto.
      * erewrite emitted_app by (simpl_world; reflexivity).
        rewrite bool_decide_false by (intros [? [=]]).
        rewrite lookup_insert_eq. auto.
    + simpl_world. erewrite emitted_app by (simpl_world; reflexivity).
      rewrite bool_decide_false by (intros [? [=]]).
      rewrite lookup_insert_eq. auto.
  - simpl_world. erewrite emitted_app by (simpl_world; reflexivity).
    rewrite lookup_insert_eq. auto.
Qed.

(** ** Grace timers *)

(** A disconnect of a bound socket schedules a buffer timer and points
    the key's entry at it.  No timer already in the queue is cleared,
    whatever the entry pointed at before. *)
Lemma handleDisconnect_bound (w : World Reg) sid pid code :
  truthy (playerId (session_of w sid)) = Some pid ->
  truthy (gameCode (session_of w sid)) = Some code ->
  let w' := exec (handleDisconnect sid) w in
  disconnectTimeouts w' !! timeoutKey code pid = Some (nextTimer w) /\
  timers w' !! nextTimer w =
    Some {| t_delay := DISCONNECT_BUFFER_MS; t_repeat := false;
            t_callback := CbBuffer code pid (displayName (session_of w sid)) |} /\
  (forall t, t <> nextTimer w -> timers w' !! t = timers w !! t) /\
  reg w' = reg w /\ out w' = out w.
Proof.
  intros Hp Hc. unfold handleDisconnect. msimpl. rewrite Hp, Hc. simpl_world.
  rewrite !lookup_insert_eq. repeat split; try reflexivity.
  intros t Ht. rewrite lookup_insert_ne by congruence. reflexivity.
Qed.

(** The buffer timer installs the removal timer under the key. *)
Lemma bufferTimeout_installs_removal (w : World Reg) code pid name :
  let w' := exec (bufferTimeoutFired code pid name) w in
  reg w' = markPlayerDisconnected (reg w) code pid /\
  emitted w w' = [(ToRoom code, MPlayerDisconnected pid name)] /\
  disconnectTimeouts w' !! timeoutKey code pid = Some (nextTimer w) /\
  timers w' !! nextTimer w =
    Some {| t_delay := DISCONNECT_GRACE_MS; t_repeat := false;
            t_callback := CbRemoval code pid name |}.
Proof.
  unfold bufferTimeoutFired. msimpl. rewrite !lookup_insert_eq.
  repeat split; try reflexivity. apply emitted_app. reflexivity.
Qed.

(** A token-based rebind cancels the timer the key's entry points at and
    deletes the entry. *)
Lemma autoReconnect_cancels (w : World Reg) sid token payload room player :
  truthy (Some token) = Some token ->
  verifyToken token = Some payload ->
  getRoom (reg w) (tk_gameCode payload) = Some room ->
  findPlayer (r_players room) (tk_playerId payload) = Some player ->
  let key := timeoutKey (tk_gameCode payload) (tk_playerId payload) in
  let w' := exec (handleAutoReconnect sid (Some token)) w in
  disconnectTimeouts w' !! key = None /\
  (forall t, disconnectTimeouts w !! key = Some t -> timers w' !! t = None).
Proof.
  intros Htok Hver Hroom Hfind. unfold handleAutoReconnect. msimpl.
  rewrite Htok, Hver, Hroom, Hfind. simpl_world.
  destruct (disconnectTimeouts w !! timeoutKey _ _) as [t|] eqn:Hkey; simpl_world.
  - rewrite lookup_delete_eq. split; [reflexivity|].
    intros t' [= <-]. apply lookup_delete_eq.
  - split; [assumption|]. intros t' [=].
Qed.

(** An explicit join request touches neither the timer queue nor the
    table of grace timers. *)
Lemma join_keeps_timers (w : World Reg) sid code pid :
  let w' := exec (on_join_room_socket sid code pid) w in
  timers w' = timers w /\ disconnectTimeouts w' = disconnectTimeouts w.
Proof.
  unfold on_join_room_socket. msimpl. branches; auto.
Qed.

End Properties.

(** * The conduct of the handlers *)

Ltac wsimpl :=
  cbn [fst snd reg disconnectTimeouts roundAnswers timers nextTimer sockets out];
  cbv beta.

(** Follow a handler through all its branches. *)
Ltac explore :=
  repeat (wsimpl;
          match goal with
          | |- context [match ?x with _ => _ end] =>
            lazymatch x with
            | context [out _] => fail
            | _ => destruct x eqn:?
            end
          end);
  wsimpl.

Section Conduct.
Context {Reg : Type}.
Context `{!GameService Reg, !SimonLogic, !ColorRaceLogic, !Auth, !Constants}.

Local Open Scope Z_scope.
Local Open Scope list_scope.

(** ** Session binding *)

Lemma emitted_more (w w' : World Reg) (l : list Emit) :
  out w' = out w ++ l -> emitted w w' = l.
Proof. unfold emitted. intros ->. apply drop_app_length. Qed.

Lemma emitted_none (w w' : World Reg) : out w' = out w -> emitted w w' = [].
Proof. unfold emitted. intros ->. apply drop_all. Qed.

(** X1. The token-based rebind fails silently: without a session cookie,
    with an empty one, with a token the verifier rejects, or with a token
    that names a room that is gone or a player the room does not have,
    [handleAutoReconnect] changes nothing and emits nothing. *)
Theorem autoReconnect_fails_silently (w : World Reg) (sid : string)
    (cookie : option string) :
  cookie = None \/ cookie = Some "" \/
  (exists token, cookie = Some token /\ verifyToken token = None) \/
  (exists token payload,
     cookie = Some token /\ verifyToken token = Some payload /\
     (getRoom (reg w) (tk_gameCode payload) = None \/
      exists room, getRoom (reg w) (tk_gameCode payload) = Some room /\
                   findPlayer (r_players room) (tk_playerId payload) = None)) ->
  handleAutoReconnect sid cookie w = (Some tt, w).
Proof.
  unfold handleAutoReconnect. msimpl.
  intros [-> | [-> | [(token & -> & Hv) | (token & payload & -> & Hv & Hroom)]]];
    try reflexivity.
  - cbn [truthy]. destruct (bool_decide (token = "")); [reflexivity|].
    rewrite Hv. reflexivity.
  - cbn [truthy]. destruct (bool_decide (token = "")); [reflexivity|].
    rewrite Hv. destruct Hroom as [-> | (room & -> & ->)]; reflexivity.
Qed.

(** X2. A token-based rebind that succeeds stores the token's identity on
    the socket, subscribes the socket to the room, passes the socket to the
    registry, tells the others of the reconnection and sends a room state
    to the socket alone, in that order; it drops the key's grace entry and
    leaves every other socket as it was.  What the room state holds is
    left to the registry. *)
Theorem autoReconnect_binds (w : World Reg) (sid token : string) payload room player :
  token <> "" ->
  verifyToken token = Some payload ->
  getRoom (reg w) (tk_gameCode payload) = Some room ->
  findPlayer (r_players room) (tk_playerId payload) = Some player ->
  let pid := tk_playerId payload in
  let code := tk_gameCode payload in
  let name := tk_displayName payload in
  let w' := exec (handleAutoReconnect sid (Some token)) w in
  reg w' = updateSocketId (reg w) code pid sid /\
  boundTo (session_of w' sid) pid code name /\
  code ∈ joined (session_of w' sid) /\
  (exists state, emitted w w' = [(ToOthers sid code, MPlayerReconnected pid name);
                                 (ToSocket sid, MRoomState state)]) /\
  disconnectTimeouts w' !! timeoutKey code pid = None /\
  (forall sid', sid' <> sid -> sockets w' !! sid' = sockets w !! sid').
Proof.
  intros Htok Hv Hroom Hfind pid code name. unfold handleAutoReconnect. msimpl.
  cbn [truthy]. rewrite bool_decide_false by assumption.
  rewrite Hv, Hroom, Hfind. wsimpl. fold pid code name.
  assert (Hsess : forall m : gmap string Session,
             default noSession
               (<[sid := {| playerId := Some pid; gameCode := Some code;
                            displayName := Some name;
                            joined := joined (default noSession (m !! sid)) |}]> m !! sid)
             = {| playerId := Some pid; gameCode := Some code; displayName := Some name;
                  joined := joined (default noSession (m !! sid)) |}).
  { intros m. rewrite lookup_insert_eq. reflexivity. }
  destruct (disconnectTimeouts w !! timeoutKey code pid) as [t|] eqn:Hkey; wsimpl;
    unfold session_of; wsimpl; rewrite ?lookup_insert_eq; cbn;
    (split; [reflexivity|]); (split; [repeat split|]);
    (split; [set_solver|]);
    (split; [eexists; apply emitted_more; rewrite <- ?app_assoc; reflexivity|]);
    (split; [first [apply lookup_delete_eq | assumption]|]);
    intros sid' Hne; rewrite !lookup_insert_ne by congruence; reflexivity.
Qed.

(** X3. An explicit join request for a room that is gone, or for a player
    the room does not have, is answered by one error notice to the
    requesting socket and changes nothing else.  One that succeeds stores
    the player's identity on the socket under the name the registry holds,
    subscribes the socket to the room, sends a room state to the socket, a
    room-state update to the whole room and a join notice to the others,
    in that order, and does not touch the grace timers.  What the three
    messages hold is left to the registry. *)
Theorem join_room_socket_outcome (w : World Reg) (sid code pid : string) :
  (getRoom (reg w) code = None ->
   on_join_room_socket sid code pid w =
     (Some tt, emitting w [(ToSocket sid, MError "Room not found")])) /\
  (forall room,
     getRoom (reg w) code = Some room ->
     findPlayer (r_players room) pid = None ->
     on_join_room_socket sid code pid w =
       (Some tt, emitting w [(ToSocket sid, MError "Player not in room")])) /\
  (forall room player,
     getRoom (reg w) code = Some room ->
     findPlayer (r_players room) pid = Some player ->
     let w' := exec (on_join_room_socket sid code pid) w in
     reg w' = updateSocketId (reg w) code pid sid /\
     boundTo (session_of w' sid) pid code (p_displayName player) /\
     code ∈ joined (session_of w' sid) /\
     (exists state state' joiner,
        emitted w w' = [(ToSocket sid, MRoomState state);
                        (ToRoom code, MRoomStateUpdate state');
                        (ToOthers sid code, MPlayerJoined joiner)]) /\
     timers w' = timers w /\ disconnectTimeouts w' = disconnectTimeouts w /\
     (forall sid', sid' <> sid -> sockets w' !! sid' = sockets w !! sid')).
Proof.
  unfold on_join_room_socket, emitting. msimpl. split; [|split].
  - intros ->. reflexivity.
  - intros room -> ->. reflexivity.
  - intros room player -> ->. wsimpl. unfold session_of. wsimpl.
    rewrite ?lookup_insert_eq. cbn.
    split; [reflexivity|]. split; [repeat split|]. split; [set_solver|].
    split; [eexists _, _, _; apply emitted_more; rewrite <- ?app_assoc; reflexivity|].
    split; [reflexivity|]. split; [reflexivity|].
    intros sid' Hne. rewrite !lookup_insert_ne by congruence. reflexivity.
Qed.

(** X4. A leave request the registry honours unsubscribes the socket from
    the room and tells the room that the player left, then sends the
    updated room if it still exists and the room-closed notice if it does
    not; the session fields end undefined, and no timer or grace entry is
    touched on either path. *)
Theorem leave_room_outcome (w : World Reg) (sid code pid : string) :
  let w' := exec (on_leave_room sid code pid) w in
  let r' := (removePlayer (reg w) code pid).2 in
  reg w' = r' /\
  timers w' = timers w /\ disconnectTimeouts w' = disconnectTimeouts w /\
  (forall sid', sid' <> sid -> sockets w' !! sid' = sockets w !! sid') /\
  ((removePlayer (reg w) code pid).1 = true ->
   (code ∉ joined (session_of w' sid)) /\
   emitted w w' =
     [(ToRoom code, MPlayerLeft pid);
      (ToRoom code, match getRoom r' code with
                    | Some room => MRoomStateUpdate room
                    | None => MRoomClosed
                    end)]).
Proof.
  unfold on_leave_room. msimpl.
  destruct (removePlayer (reg w) code pid).1 eqn:Hrem; wsimpl.
  - destruct (getRoom _ code) as [room|] eqn:Hroom; wsimpl;
      unfold session_of; wsimpl; rewrite ?lookup_insert_eq; cbn;
      (repeat split; try reflexivity;
       [intros sid' Hne; rewrite !lookup_insert_ne by congruence; reflexivity
       |rewrite elem_of_difference, elem_of_singleton; intros [_ []]; reflexivity
       |apply emitted_more; rewrite <- ?app_assoc; reflexivity]).
  - repeat split; try reflexivity; try discriminate.
    intros sid' Hne. rewrite lookup_insert_ne by congruence. reflexivity.
Qed.

(** X5. The order in which [start_game] checks its preconditions: a
    missing room is reported as such; in an existing room a player who is
    absent or not the host is told that only the host can start, whatever
    the room's status; only the host of a room that is not [waiting] is
    told that the game has already started. *)
Theorem start_game_refusals (w : World Reg) (sid code pid : string) :
  (getRoom (reg w) code = None ->
   on_start_game sid code pid w =
     (Some tt, emitting w [(ToSocket sid, MError "Room not found")])) /\
  (forall room,
     getRoom (reg w) code = Some room ->
     (p_isHost <$> findPlayer (r_players room) pid) <> Some true ->
     on_start_game sid code pid w =
       (Some tt, emitting w [(ToSocket sid, MError "Only host can start the game")])) /\
  (forall room,
     getRoom (reg w) code = Some room ->
     p_isHost <$> findPlayer (r_players room) pid = Some true ->
     r_status room <> waiting ->
     on_start_game sid code pid w =
       (Some tt, emitting w [(ToSocket sid, MError "Game already started")])).
Proof.
  unfold on_start_game, emitting. msimpl. split; [|split].
  - intros ->. reflexivity.
  - intros room -> Hhost.
    destruct (findPlayer (r_players room) pid) as [[? ? [] ? ?]|]; try reflexivity.
    exfalso. apply Hhost. reflexivity.
  - intros room -> Hhost Hst.
    destruct (findPlayer (r_players room) pid) as [[? ? [] ? ?]|]; try discriminate.
    rewrite bool_decide_true by assumption. reflexivity.
Qed.

(** ** Single steps, as the worlds they build *)

Lemma step_disconnect_bound (w : World Reg) (sid : string) (s : Session) pid code :
  sockets w !! sid = Some s ->
  truthy (playerId s) = Some pid ->
  truthy (gameCode s) = Some code ->
  step w (EvDisconnect sid) =
    mkWorld (reg w) (<[timeoutKey code pid := nextTimer w]> (disconnectTimeouts w))
      (roundAnswers w)
      (<[nextTimer w := {| t_delay := DISCONNECT_BUFFER_MS; t_repeat := false;
                           t_callback := CbBuffer code pid (displayName s) |}]> (timers w))
      (S (nextTimer w)) (delete sid (sockets w)) (out w).
Proof.
  intros Hsock Hp Hc.
  assert (Hs : session_of w sid = s) by (unfold session_of; rewrite Hsock; reflexivity).
  unfold step, handle, on_socket, exec. rewrite Hsock.
  unfold handleDisconnect. msimpl. rewrite Hs, Hp, Hc. reflexivity.
Qed.

Lemma step_timeout (w : World Reg) (i : nat) (delay : Z) (cb : Callback) :
  timers w !! i = Some {| t_delay := delay; t_repeat := false; t_callback := cb |} ->
  step w (EvTimer i) =
    exec (run_callback i cb)
      (mkWorld (reg w) (disconnectTimeouts w) (roundAnswers w) (delete i (timers w))
         (nextTimer w) (sockets w) (out w)).
Proof.
  intros Hi. unfold step, handle, exec, fire. rewrite Hi. reflexivity.
Qed.

Lemma step_dead_timer (w : World Reg) (i : nat) :
  timers w !! i = None -> step w (EvTimer i) = w.
Proof.
  intros Hi. unfold step, handle, exec, fire. rewrite Hi. reflexivity.
Qed.

(** ** Grace period *)

(** X6. A bound socket disconnects and both timers of its grace period
    fire with no rebind in between: the player is marked disconnected and
    the room is told so; the registry is then asked to remove the player if
    still disconnected, and only if it did are the player-left notice and
    the updated room (or the room-closed notice) sent, once.  In the end
    the key has no grace entry and neither timer is live. *)
Theorem grace_period_elapses (w : World Reg) (sid : string) (s : Session) pid code :
  sockets w !! sid = Some s ->
  truthy (playerId s) = Some pid ->
  truthy (gameCode s) = Some code ->
  let i := nextTimer w in
  let w' := run w [EvDisconnect sid; EvTimer i; EvTimer (S i)] in
  let r1 := markPlayerDisconnected (reg w) code pid in
  let removal := removeIfStillDisconnected r1 code pid in
  reg w' = removal.2 /\
  emitted w w' =
    (ToRoom code, MPlayerDisconnected pid (displayName s))
    :: (if removal.1
        then [(ToRoom code, MPlayerLeft pid);
              (ToRoom code, match getRoom removal.2 code with
                            | Some room => MRoomStateUpdate room
                            | None => MRoomClosed
                            end)]
        else []) /\
  disconnectTimeouts w' !! timeoutKey code pid = None /\
  timers w' !! i = None /\ timers w' !! S i = None /\
  sockets w' !! sid = None.
Proof.
  intros Hsock Hp Hc i w' r1 removal. unfold w', run. cbn [foldl].
  rewrite (step_disconnect_bound w sid s pid code) by assumption. fold i.
  erewrite (step_timeout _ i) by (wsimpl; apply lookup_insert_eq).
  cbn [run_callback]. unfold bufferTimeoutFired. msimpl. wsimpl. fold r1.
  erewrite (step_timeout _ (S i)) by (wsimpl; apply lookup_insert_eq).
  cbn [run_callback]. unfold removalTimeoutFired. msimpl. wsimpl. fold removal.
  assert (Hi : forall (B R : Timer),
             delete (S i) (<[S i := R]> (delete i (<[i := B]> (timers w)))) !! i = None).
  { intros B R.
    rewrite lookup_delete_ne, lookup_insert_ne, lookup_delete_eq by lia. reflexivity. }
  destruct removal.1; wsimpl; [destruct (getRoom removal.2 code); wsimpl|];
    rewrite !lookup_delete_eq, Hi;
    (repeat split; try reflexivity;
     apply emitted_more; wsimpl; rewrite <- ?app_assoc; reflexivity).
Qed.

(** X7. A bound socket disconnects and the player comes back on a fresh
    socket with a valid session token before the buffer timer fires: the
    buffer timer is cancelled and the key's entry dropped, the room hears
    of the reconnection and never of a disconnection, the new socket is
    sent a room state (whose content is left to the registry), the
    registry is only told the new socket, and the cancelled handle firing
    later does nothing at all. *)
Theorem reconnect_within_buffer (w : World Reg) (sid sid2 : string) (s : Session)
    pid code token payload room player :
  sockets w !! sid = Some s ->
  truthy (playerId s) = Some pid ->
  truthy (gameCode s) = Some code ->
  sockets w !! sid2 = None ->
  token <> "" ->
  verifyToken token = Some payload ->
  tk_playerId payload = pid ->
  tk_gameCode payload = code ->
  getRoom (reg w) code = Some room ->
  findPlayer (r_players room) pid = Some player ->
  let i := nextTimer w in
  let w' := run w [EvDisconnect sid; EvConnect sid2 (Some token)] in
  reg w' = updateSocketId (reg w) code pid sid2 /\
  (exists state,
     emitted w w' = [(ToOthers sid2 code, MPlayerReconnected pid (tk_displayName payload));
                     (ToSocket sid2, MRoomState state)]) /\
  disconnectTimeouts w' !! timeoutKey code pid = None /\
  timers w' !! i = None /\
  boundTo (session_of w' sid2) pid code (tk_displayName payload) /\
  step w' (EvTimer i) = w'.
Proof.
  intros Hsock Hp Hc Hsock2 Htok Hv Hpid Hcode Hroom Hfind i w'.
  assert (Hne : sid <> sid2) by (intros ->; congruence).
  assert (Hw' : w' =
    mkWorld (updateSocketId (reg w) code pid sid2)
      (delete (timeoutKey code pid) (<[timeoutKey code pid := i]> (disconnectTimeouts w)))
      (roundAnswers w)
      (delete i (<[i := {| t_delay := DISCONNECT_BUFFER_MS; t_repeat := false;
                            t_callback := CbBuffer code pid (displayName s) |}]> (timers w)))
      (S i)
      (<[sid2 := {| playerId := Some pid; gameCode := Some code;
                    displayName := Some (tk_displayName payload);
                    joined := {[code]} ∪ ∅ |}]>
         (<[sid2 := {| playerId := Some pid; gameCode := Some code;
                       displayName := Some (tk_displayName payload);
                       joined := ∅ |}]>
            (<[sid2 := noSession]> (delete sid (sockets w)))))
      (out w ++ [(ToOthers sid2 code, MPlayerReconnected pid (tk_displayName payload));
                 (ToSocket sid2, MRoomState room)])).
  { unfold w', run. cbn [foldl].
    rewrite (step_disconnect_bound w sid s pid code) by assumption. fold i.
    unfold step, handle, on_connection, exec. wsimpl.
    rewrite lookup_delete_ne, Hsock2 by assumption.
    unfold handleAutoReconnect. msimpl. cbn [truthy].
    rewrite bool_decide_false by assumption. rewrite Hv, Hpid, Hcode. wsimpl.
    rewrite Hroom, Hfind. wsimpl. rewrite lookup_insert_eq. wsimpl.
    unfold session_of. wsimpl. rewrite !lookup_insert_eq. cbn.
    rewrite <- app_assoc. reflexivity. }
  rewrite Hw'. wsimpl. unfold session_of. wsimpl.
  rewrite !lookup_delete_eq, lookup_insert_eq.
  split; [reflexivity|].
  split; [eexists; apply emitted_more; reflexivity|].
  split; [reflexivity|]. split; [reflexivity|]. split; [repeat split|].
  apply step_dead_timer. wsimpl. apply lookup_delete_eq.
Qed.

(** ** Sequence pacing *)

(** X8. Showing a sequence announces the round and its sequence at once
    and schedules the sequence-complete notice after the show time of the
    whole sequence plus 500 ms; that notice schedules the input-phase
    notice 500 ms later.  The three notices come in this order and carry
    the round captured when the show began; the registry is not read or
    written on the way. *)
Theorem sequence_pacing (w : World Reg) (code : string) (gs : SimonGameState) :
  let i := nextTimer w in
  let w1 := exec (showSimonSequence code gs) w in
  let w2 := step w1 (EvTimer i) in
  let w3 := step w2 (EvTimer (S i)) in
  emitted w w1 = [(ToRoom code, MSimonShowSequence (s_round gs) (s_sequence gs))] /\
  t_delay <$> timers w1 !! i =
    Some (Z.of_nat (length (s_sequence gs))
          * (SHOW_COLOR_DURATION_MS + SHOW_COLOR_GAP_MS) + 500) /\
  emitted w1 w2 = [(ToRoom code, MSimonSequenceComplete)] /\
  t_delay <$> timers w2 !! S i = Some 500 /\
  emitted w2 w3 = [(ToRoom code, MSimonInputPhase (s_round gs))] /\
  reg w3 = reg w /\ timers w3 !! i = None /\ timers w3 !! S i = None.
Proof.
  intros i w1 w2 w3.
  set (T1 := {| t_delay := Z.of_nat (length (s_sequence gs))
                           * (SHOW_COLOR_DURATION_MS + SHOW_COLOR_GAP_MS) + 500;
                t_repeat := false; t_callback := CbSequenceComplete code gs |}).
  set (T2 := {| t_delay := 500; t_repeat := false; t_callback := CbInputPhase code gs |}).
  assert (H1' : w1 = mkWorld (reg w) (disconnectTimeouts w) (roundAnswers w)
                       (<[i := T1]> (timers w)) (S i) (sockets w)
                       (out w ++ [(ToRoom code,
                                   MSimonShowSequence (s_round gs) (s_sequence gs))]))
    by reflexivity.
  assert (H2' : w2 = mkWorld (reg w) (disconnectTimeouts w) (roundAnswers w)
                       (<[S i := T2]> (delete i (<[i := T1]> (timers w)))) (S (S i))
                       (sockets w)
                       ((out w ++ [(ToRoom code,
                                    MSimonShowSequence (s_round gs) (s_sequence gs))])
                        ++ [(ToRoom code, MSimonSequenceComplete)])).
  { unfold w2. rewrite H1'. erewrite step_timeout by (wsimpl; apply lookup_insert_eq).
    reflexivity. }
  assert (H3' : w3 = mkWorld (reg w) (disconnectTimeouts w) (roundAnswers w)
                       (delete (S i) (<[S i := T2]> (delete i (<[i := T1]> (timers w)))))
                       (S (S i)) (sockets w)
                       (((out w ++ [(ToRoom code,
                                     MSimonShowSequence (s_round gs) (s_sequence gs))])
                         ++ [(ToRoom code, MSimonSequenceComplete)])
                        ++ [(ToRoom code, MSimonInputPhase (s_round gs))])).
  { unfold w3. rewrite H2'. erewrite step_timeout by (wsimpl; apply lookup_insert_eq).
    reflexivity. }
  rewrite H3', H2', H1'. wsimpl.
  rewrite !lookup_insert_eq, lookup_delete_eq.
  rewrite lookup_delete_ne, lookup_insert_ne, lookup_delete_eq by lia.
  repeat split; try reflexivity; apply emitted_more; reflexivity.
Qed.

(** ** What holds of every world the engine reaches *)

Lemma run_invariant (P : World Reg -> Prop) :
  (forall w ev, P w -> P (step w ev)) ->
  forall evs w, P w -> P (run w evs).
Proof.
  intros Hstep evs. unfold run. induction evs as [|ev evs IH]; intros w Hw; cbn.
  - exact Hw.
  - apply IH, Hstep, Hw.
Qed.

(** *** The table of answers *)

Lemma not_answered_fresh (l : list PlayerAnswer) (pid : string) :
  existsb (fun a => bool_decide (a_playerId a = pid)) l = false ->
  pid ∉ a_playerId <$> l.
Proof.
  induction l as [|a l IH]; cbn; intros Hex.
  - apply not_elem_of_nil.
  - apply orb_false_iff in Hex as [Ha Hl]. apply bool_decide_eq_false in Ha.
    rewrite not_elem_of_cons. split; [congruence|]. apply IH, Hl.
Qed.

Lemma answers_frame_step (w : World Reg) (ev : Event) :
  match ev with
  | EvColorRaceSubmitAnswer _ code _ _ _ =>
    forall code', code' <> code ->
      roundAnswers (step w ev) !! code' = roundAnswers w !! code'
  | _ => roundAnswers (step w ev) = roundAnswers w
  end /\
  (forall c, is_Some (roundAnswers w !! c) -> is_Some (roundAnswers (step w ev) !! c)).
Proof.
  destruct ev as [sid cookie|sid code pid|sid code pid|sid code pid
                 |sid code pid color now|sid code pid sequence
                 |sid code pid color idx|sid|i];
    unfold step, handle, on_socket, on_connection.
  - unfold handleAutoReconnect. msimpl. explore; auto.
  - unfold on_join_room_socket. msimpl. explore; auto.
  - unfold on_leave_room. msimpl. explore; auto.
  - unfold on_start_game, startCountdown. msimpl. explore; auto.
  - unfold on_color_race_submit_answer, processColorRaceRound. msimpl.
    explore;
      (split;
       [intros code' Hne'; rewrite ?lookup_insert_ne by congruence; reflexivity
       |intros key Hkey; destruct (decide (key = code)) as [->|Hne'];
        [rewrite ?lookup_insert_eq; eauto
        |rewrite ?lookup_insert_ne by congruence; exact Hkey]]).
  - unfold on_simon_submit_sequence. msimpl. explore; auto.
  - unfold on_simon_submit_input, finishSimonGame. msimpl. explore; auto.
  - unfold handleDisconnect. msimpl. explore; auto.
  - unfold exec, fire. destruct (timers w !! i) as [[delay rep cb]|]; [|cbn; auto].
    destruct cb; cbn [t_repeat t_callback];
      unfold run_callback, countdownTick, showSimonSequence, advanceSimonRound,
        finishSimonGame, bufferTimeoutFired, removalTimeoutFired, gameType;
      msimpl; explore; auto.
Qed.

(** X9. Across any sequence of events the answers recorded for a room
    are changed only by [color_race:submit_answer] events that name that
    room: a run with no such event, whatever else happens in it (timers,
    answers for other rooms, the removal of the room's last player), leaves
    the room's entry as it was.  And no event ever removes an entry. *)
Theorem answers_table_frame (w : World Reg) (evs : list Event) (c : string) :
  (Forall (fun ev => answersRoom ev <> Some c) evs ->
   roundAnswers (run w evs) !! c = roundAnswers w !! c) /\
  (is_Some (roundAnswers w !! c) -> is_Some (roundAnswers (run w evs) !! c)).
Proof.
  unfold run. revert w. induction evs as [|ev evs IH]; intros w; cbn [foldl].
  - auto.
  - destruct (IH (step w ev)) as [IHsame IHkept].
    destruct (answers_frame_step w ev) as [Hstep Hkept]. split.
    + intros [Hev Hevs]%Forall_cons. rewrite (IHsame Hevs).
      destruct ev; cbn [answersRoom] in Hev; try (rewrite Hstep; reflexivity).
      apply Hstep. congruence.
    + intros Hc. apply IHkept, Hkept, Hc.
Qed.

Lemma step_answersDistinct (w : World Reg) (ev : Event) :
  answersDistinct w -> answersDistinct (step w ev).
Proof.
  intros Hinv.
  destruct ev as [sid cookie|sid code pid|sid code pid|sid code pid
                 |sid code pid color now|sid code pid sequence
                 |sid code pid color idx|sid|i];
    try (match goal with
         | |- answersDistinct (step _ ?e) =>
           pose proof (proj1 (answers_frame_step w e)) as Hf; cbn beta iota in Hf
         end;
         unfold answersDistinct; rewrite Hf; exact Hinv).
  unfold step, handle, on_socket, exec.
  destruct (sockets w !! sid); [|exact Hinv].
  unfold on_color_race_submit_answer, processColorRaceRound. msimpl.
  destruct (getRoom (reg w) code) as [room|]; [|exact Hinv].
  destruct (bool_decide (r_status room ≠ active)); [exact Hinv|].
  destruct (r_gameState room) as [[?|gs]|]; try exact Hinv.
  destruct (existsb _ _) eqn:Hdup; [exact Hinv|].
  assert (Hnew : NoDup (a_playerId <$>
                        default [] (roundAnswers w !! code) ++
                        [{| a_playerId := pid; a_color := color; a_timestamp := now |}])).
  { rewrite fmap_app. cbn [fmap list_fmap a_playerId]. apply NoDup_app.
    split; [|split].
    - destruct (roundAnswers w !! code) as [l|] eqn:Hl; cbn [default].
      + apply (Hinv _ _ Hl).
      + apply NoDup_nil_2.
    - intros x Hx Hx'. apply list_elem_of_singleton in Hx'. subst x.
      revert Hx. apply not_answered_fresh, Hdup.
    - apply NoDup_singleton. }
  explore; intros key ans; wsimpl;
    (destruct (decide (key = code)) as [->|Hne'];
     [rewrite ?lookup_insert_eq; intros [= <-]; first [exact Hnew | apply NoDup_nil_2]
     |rewrite ?lookup_insert_ne by congruence; apply Hinv]).
Qed.

(** X10. In every world the engine reaches from its start, the answers
    recorded for a room come from distinct players: at most one answer per
    player per round. *)
Theorem one_answer_per_player (r : Reg) (evs : list Event) (code : string) :
  NoDup (a_playerId <$> recorded (run (initWorld r) evs) code).
Proof.
  assert (Hinv : answersDistinct (run (initWorld r) evs)).
  { apply run_invariant.
    - intros w ev. apply step_answersDistinct.
    - unfold initWorld, startCleanupInterval. msimpl. intros c l. wsimpl.
      rewrite lookup_empty. discriminate. }
  unfold recorded. destruct (roundAnswers _ !! code) as [l|] eqn:Hl; cbn [default].
  - apply (Hinv _ _ Hl).
  - apply NoDup_nil_2.
Qed.

(** *** Timer handles and the grace table *)

Lemma sound_schedule T D n (t : Timer) :
  handlesSound T D n -> handlesSound (<[n := t]> T) D (S n).
Proof.
  intros [Ha Hb]. split.
  - intros i t' [[<- _]|[_ Hi]]%lookup_insert_Some; [lia|]. specialize (Ha _ _ Hi). lia.
  - intros k h Hk. destruct (Hb _ _ Hk) as [Hlt Hg]. split; [lia|].
    intros t'. rewrite lookup_insert_ne by lia. apply Hg.
Qed.

Lemma sound_register T D n (k : string) (t : Timer) :
  isGrace (t_callback t) = true ->
  handlesSound T D n -> handlesSound (<[n := t]> T) (<[k := n]> D) (S n).
Proof.
  intros Hgrace [Ha Hb]. split.
  - intros i t' [[<- _]|[_ Hi]]%lookup_insert_Some; [lia|]. specialize (Ha _ _ Hi). lia.
  - intros k' h [[<- <-]|[_ Hk]]%lookup_insert_Some.
    + split; [lia|]. intros t'. rewrite lookup_insert_eq. intros [= <-]. exact Hgrace.
    + destruct (Hb _ _ Hk) as [Hlt Hg]. split; [lia|].
      intros t'. rewrite lookup_insert_ne by lia. apply Hg.
Qed.

Lemma sound_clear T D n (i : nat) :
  handlesSound T D n -> handlesSound (delete i T) D n.
Proof.
  intros [Ha Hb]. split.
  - intros j t [_ Hj]%lookup_delete_Some. apply (Ha _ _ Hj).
  - intros k h Hk. destruct (Hb _ _ Hk) as [Hlt Hg]. split; [exact Hlt|].
    intros t [_ Hh]%lookup_delete_Some. apply (Hg _ Hh).
Qed.

Lemma sound_forget T D n (k : string) :
  handlesSound T D n -> handlesSound T (delete k D) n.
Proof.
  intros [Ha Hb]. split; [exact Ha|].
  intros k' h [_ Hk]%lookup_delete_Some. apply (Hb _ _ Hk).
Qed.

Lemma sound_recount T D n (i : nat) (f : Timer -> Timer) :
  (forall t, T !! i = Some t -> isGrace (t_callback t) = false) ->
  handlesSound T D n -> handlesSound (alter f i T) D n.
Proof.
  intros Hi [Ha Hb]. split.
  - intros j t Hj. destruct (decide (i = j)) as [<-|Hne].
    + rewrite lookup_alter_eq in Hj. destruct (T !! i) as [t0|] eqn:Ht0; [|discriminate].
      apply (Ha _ _ Ht0).
    + rewrite lookup_alter_ne in Hj by assumption. apply (Ha _ _ Hj).
  - intros k h Hk. destruct (Hb _ _ Hk) as [Hlt Hg]. split; [exact Hlt|].
    intros t Hh. destruct (decide (i = h)) as [<-|Hne].
    + rewrite lookup_alter_eq in Hh. destruct (T !! i) as [t0|] eqn:Ht0; [|discriminate].
      pose proof (Hg _ eq_refl). pose proof (Hi _ eq_refl). congruence.
    + rewrite lookup_alter_ne in Hh by assumption. apply (Hg _ Hh).
Qed.

(** Reduce the soundness of a world built by a handler to that of the
    world it started from, one timer operation at a time. *)
Ltac sound :=
  unfold timersSound in *; wsimpl;
  repeat first
    [ assumption
    | apply sound_register; [reflexivity|]
    | apply sound_schedule
    | apply sound_clear
    | apply sound_forget ].

Lemma step_timersSound (w : World Reg) (ev : Event) :
  timersSound w -> timersSound (step w ev).
Proof.
  intros Hinv.
  destruct ev as [sid cookie|sid code pid|sid code pid|sid code pid
                 |sid code pid color now|sid code pid sequence
                 |sid code pid color idx|sid|i];
    unfold step, handle, on_socket, on_connection.
  - unfold handleAutoReconnect. msimpl. explore; sound.
  - unfold on_join_room_socket. msimpl. explore; sound.
  - unfold on_leave_room. msimpl. explore; sound.
  - unfold on_start_game, startCountdown. msimpl. explore; sound.
  - unfold on_color_race_submit_answer, processColorRaceRound. msimpl. explore; sound.
  - unfold on_simon_submit_sequence. msimpl. explore; sound.
  - unfold on_simon_submit_input, finishSimonGame. msimpl. explore; sound.
  - unfold handleDisconnect. msimpl. explore; sound.
  - unfold exec, fire. destruct (timers w !! i) as [[delay rep cb]|] eqn:Hi; [|exact Hinv].
    destruct cb; cbn [t_repeat t_callback];
      unfold run_callback, countdownTick, showSimonSequence, advanceSimonRound,
        finishSimonGame, bufferTimeoutFired, removalTimeoutFired, gameType;
      msimpl; explore; try (sound; fail);
      unfold timersSound in *; wsimpl;
      (apply sound_recount;
       [intros t;
        rewrite ?lookup_insert_Some, ?lookup_delete_Some, ?Hi;
        intros; repeat match goal with
                       | H : _ \/ _ |- _ => destruct H
                       | H : _ /\ _ |- _ => destruct H
                       end; subst; try congruence; try reflexivity;
        match goal with H : Some _ = Some _ |- _ => injection H as <- end; reflexivity
       |sound]).
Qed.

Lemma initWorld_timersSound (r : Reg) : timersSound (initWorld r).
Proof.
  unfold initWorld, startCleanupInterval, timersSound. msimpl. wsimpl.
  apply sound_schedule. split.
  - intros i t. rewrite lookup_empty. discriminate.
  - intros k h. rewrite lookup_empty. discriminate.
Qed.

Lemma reachable_timersSound (r : Reg) (evs : list Event) :
  timersSound (run (initWorld r) evs).
Proof.
  apply run_invariant.
  - intros w ev. apply step_timersSound.
  - apply initWorld_timersSound.
Qed.

(** A pending timer is looked up again after a handler that only
    scheduled, cleared or recounted other handles. *)
Ltac kept :=
  left; wsimpl;
  rewrite ?lookup_alter_ne, ?lookup_insert_ne, ?lookup_delete_ne by lia;
  assumption.

Lemma timer_survives (w : World Reg) (ev : Event) (j : nat) (t : Timer) :
  timersSound w ->
  timers w !! j = Some t ->
  timers (step w ev) !! j = Some t \/
  (ev = EvTimer j /\
   (t_repeat t = false \/ exists code count, t_callback t = CbCountdown code count)) \/
  (isGrace (t_callback t) = true /\ exists sid cookie, ev = EvConnect sid cookie).
Proof.
  intros [Ha Hb] Hj. pose proof (Ha _ _ Hj) as Hlt.
  destruct ev as [sid cookie|sid code pid|sid code pid|sid code pid
                 |sid code pid color now|sid code pid sequence
                 |sid code pid color idx|sid|i];
    unfold step, handle, on_socket, on_connection.
  - unfold handleAutoReconnect. msimpl. explore; try kept.
    match goal with
    | Hk : disconnectTimeouts w !! _ = Some ?h |- _ =>
      destruct (decide (h = j)) as [->|Hne];
        [right; right; split; [apply (proj2 (Hb _ _ Hk) _ Hj) | eauto] | kept]
    end.
  - unfold on_join_room_socket. msimpl. explore; kept.
  - unfold on_leave_room. msimpl. explore; kept.
  - unfold on_start_game, startCountdown. msimpl. explore; kept.
  - unfold on_color_race_submit_answer, processColorRaceRound. msimpl. explore; kept.
  - unfold on_simon_submit_sequence. msimpl. explore; kept.
  - unfold on_simon_submit_input, finishSimonGame. msimpl. explore; kept.
  - unfold handleDisconnect. msimpl. explore; kept.
  - unfold exec, fire. destruct (decide (i = j)) as [->|Hne].
    + rewrite Hj. destruct t as [delay [] cb]; cbn [t_repeat t_callback];
        [|right; left; auto].
      destruct cb; try (right; left; split; [reflexivity|right; eauto]; fail);
        unfold run_callback, advanceSimonRound, showSimonSequence,
          finishSimonGame, bufferTimeoutFired, removalTimeoutFired;
        msimpl; explore; kept.
    + destruct (timers w !! i) as [[delay rep cb]|] eqn:Hi; [|left; exact Hj].
      destruct cb; cbn [t_repeat t_callback];
        unfold run_callback, countdownTick, advanceSimonRound, showSimonSequence,
          finishSimonGame, bufferTimeoutFired, removalTimeoutFired, gameType;
        msimpl; explore; kept.
Qed.

(** X11. In every world the engine reaches, a pending timer stays in the
    queue, unchanged, across every event but three: its own firing as a
    timeout, its own firing as the countdown interval (which recounts or
    clears itself), and a token rebind, which can cancel it only if it is
    a timer of the grace period.  No handler cancels or alters any other
    timer. *)
Theorem pending_timers_frame (r : Reg) (evs : list Event) (ev : Event)
    (j : nat) (t : Timer) :
  let w := run (initWorld r) evs in
  timers w !! j = Some t ->
  timers (step w ev) !! j = Some t \/
  (ev = EvTimer j /\
   (t_repeat t = false \/ exists code count, t_callback t = CbCountdown code count)) \/
  (isGrace (t_callback t) = true /\ exists sid cookie, ev = EvConnect sid cookie).
Proof.
  intros w. apply timer_survives, reachable_timersSound.
Qed.

(** X12. The dead-room sweeper, once [initializeGameHandlers] has started
    it, is never cancelled: after any sequence of events its interval is
    still pending under its handle, and its firing asks the registry to
    sweep and does nothing else. *)
Theorem sweeper_keeps_running (r : Reg) (evs : list Event) :
  let w := run (initWorld r) evs in
  timers w !! 0%nat = Some cleanupTimer /\
  step w (EvTimer 0) = set_reg (cleanupDeadRooms (reg w)).2 w.
Proof.
  intros w.
  assert (Hlive : timers w !! 0%nat = Some cleanupTimer).
  { unfold w.
    cut (timersSound (run (initWorld r) evs) /\
         timers (run (initWorld r) evs) !! 0%nat = Some cleanupTimer); [tauto|].
    apply (run_invariant (fun w => timersSound w /\ timers w !! 0%nat = Some cleanupTimer)).
    - intros w0 ev [Hs H0']. split; [apply step_timersSound, Hs|].
      destruct (timer_survives w0 ev 0 cleanupTimer Hs H0')
        as [Hkept | [[_ [Hrep | (code & count & Hcb)]] | [Hgrace _]]];
        [exact Hkept | discriminate..].
    - split; [apply initWorld_timersSound|].
      unfold initWorld, startCleanupInterval. msimpl. wsimpl. apply lookup_insert_eq. }
  split; [exact Hlive|].
  unfold step, handle, exec, fire. rewrite Hlive. reflexivity.
Qed.

(** ** Fan-out *)

Ltac sent :=
  first [ erewrite emitted_none by (wsimpl; reflexivity)
        | erewrite emitted_more by (wsimpl; rewrite <- ?app_assoc; reflexivity) ];
  unfold addressed, toRoomOnly;
  repeat (apply Forall_cons_2;
          [cbn; first [ reflexivity | left; reflexivity | right; left; reflexivity
                      | right; right; reflexivity | right; eexists; reflexivity ]|]);
  first [apply Forall_nil_2 | reflexivity].

(** X13. No event speaks outside its own socket and room.  A join or
    start request is answered on the requesting socket or in the room it
    names; a leave request and the three game submissions emit to the room
    they name and nowhere else, never to the submitting socket alone; a
    connection emits to the new socket or to the others of one room; a
    disconnect emits nothing; a timer emits only to the room its closure
    captured, and a handle that is not live emits nothing. *)
Theorem fan_out_confined (w : World Reg) (ev : Event) :
  let l := emitted w (step w ev) in
  match ev with
  | EvConnect sid _ =>
    Forall (fun e : Emit => e.1 = ToSocket sid \/ exists code, e.1 = ToOthers sid code) l
  | EvJoinRoomSocket sid code _ | EvStartGame sid code _ => addressed sid code l
  | EvLeaveRoom _ code _ | EvColorRaceSubmitAnswer _ code _ _ _
  | EvSimonSubmitSequence _ code _ _ | EvSimonSubmitInput _ code _ _ _ =>
    toRoomOnly code l
  | EvDisconnect _ => l = []
  | EvTimer i =>
    match timers w !! i with
    | Some t => forall e, e ∈ l -> Some e.1 = ToRoom <$> callbackRoom (t_callback t)
    | None => l = []
    end
  end.
Proof.
  destruct ev as [sid cookie|sid code pid|sid code pid|sid code pid
                 |sid code pid color now|sid code pid sequence
                 |sid code pid color idx|sid|i];
    cbv zeta; unfold step, handle, on_socket, on_connection.
  - unfold handleAutoReconnect. msimpl. explore; sent.
  - unfold on_join_room_socket. msimpl. explore; sent.
  - unfold on_leave_room. msimpl. explore; sent.
  - unfold on_start_game, startCountdown. msimpl. explore; sent.
  - unfold on_color_race_submit_answer, processColorRaceRound. msimpl. explore; sent.
  - unfold on_simon_submit_sequence. msimpl. explore; sent.
  - unfold on_simon_submit_input, finishSimonGame. msimpl. explore; sent.
  - unfold handleDisconnect. msimpl. explore; sent.
  - unfold exec, fire. destruct (timers w !! i) as [[delay rep cb]|] eqn:Hi;
      [|apply emitted_none; reflexivity].
    destruct cb; cbn [t_repeat t_callback callbackRoom fmap option_fmap option_map];
      unfold run_callback, countdownTick, advanceSimonRound, showSimonSequence,
        finishSimonGame, bufferTimeoutFired, removalTimeoutFired, gameType;
      msimpl; explore;
      (first [ erewrite emitted_none by (wsimpl; reflexivity)
             | erewrite emitted_more by (wsimpl; rewrite <- ?app_assoc; reflexivity) ]);
      intros e He;
      repeat (apply elem_of_cons in He as [-> | He]; [reflexivity|]);
      apply elem_of_nil in He; destruct He.
Qed.

(** ** Sequence game: when the round advances *)

Lemma allComplete_spec (gs : SimonGameState) :
  forallb (fun state =>
             bool_decide (ps_status state ≠ playing)
             || (Z.of_nat (length (s_sequence gs)) <=? ps_currentInputIndex state))
          (playerStateValues (s_playerStates gs)) = true
  <-> allPlayingDone gs.
Proof.
  unfold allPlayingDone, playerStateValues.
  rewrite map_Forall_to_list, forallb_forall, Forall_forall.
  split.
  - intros Hall [p st] Hin. cbn. intros Hplaying.
    assert (Hst : In st (map_to_list (s_playerStates gs)).*2).
    { apply list_elem_of_In, list_elem_of_fmap. exists (p, st). split; [reflexivity|].
      exact Hin. }
    specialize (Hall _ Hst). apply orb_true_iff in Hall as [Hnp | Hle].
    + apply bool_decide_eq_true in Hnp. contradiction.
    + apply Z.leb_le, Hle.
  - intros Hall st Hin.
    apply list_elem_of_In, list_elem_of_fmap in Hin as ([p st'] & -> & Hin). cbn.
    specialize (Hall _ Hin). cbn in Hall.
    destruct (decide (ps_status st' = playing)) as [Hp | Hnp].
    + apply orb_true_iff. right. apply Z.leb_le, Hall, Hp.
    + apply orb_true_iff. left. apply bool_decide_eq_true, Hnp.
Qed.

(** X14. After a right step the next round is scheduled, 2000 ms later,
    exactly when the stepping player has now entered the whole sequence
    and every player still [playing] in the updated state has too; in
    every other case, and when the updated state no longer lists the
    player, no timer is scheduled.  Either way the progress is persisted
    and acknowledged. *)
Theorem round_advance_condition (w : World Reg) code pid color idx room gs :
  simonGuard (reg w) code pid = Some (room, gs) ->
  validateInput gs pid color idx = true ->
  let newState := updatePlayerProgress gs pid in
  let len := Z.of_nat (length (s_sequence newState)) in
  let w' := exec (on_simon_submit_input code pid color idx) w in
  let advance := {| t_delay := 2000; t_repeat := false;
                    t_callback := CbAdvanceSimon code |} in
  reg w' = updateGameState (reg w) code (GSimon newState) /\
  emitted w w' = [(ToRoom code, MSimonInputCorrect pid idx)] /\
  match s_playerStates newState !! pid with
  | Some updated =>
    (len <= ps_currentInputIndex updated /\ allPlayingDone newState ->
     timers w' = <[nextTimer w := advance]> (timers w)) /\
    (~ (len <= ps_currentInputIndex updated /\ allPlayingDone newState) ->
     timers w' = timers w)
  | None => timers w' = timers w
  end.
Proof.
  unfold simonGuard, on_simon_submit_input. msimpl. intros Hg Hv.
  destruct (getRoom (reg w) code) as [room'|]; [|discriminate].
  destruct (bool_decide (r_status room' ≠ active)); [discriminate|].
  destruct (r_gameState room') as [[gs'|?]|]; try discriminate.
  destruct (s_playerStates gs' !! pid) as [[[] ?]|]; try discriminate.
  injection Hg as -> ->. rewrite Hv. cbn [negb]. wsimpl.
  set (newState := updatePlayerProgress gs pid).
  pose proof (allComplete_spec newState) as Hall.
  destruct (s_playerStates newState !! pid) as [updated|]; wsimpl.
  - destruct (Z.leb_spec (Z.of_nat (length (s_sequence newState)))
                (ps_currentInputIndex updated)) as [Hle|Hgt].
    + destruct (forallb _ _) eqn:Hfb; wsimpl;
        (split; [reflexivity|]); (split; [apply emitted_more; reflexivity|]); split.
      * reflexivity.
      * intros Hn. exfalso. apply Hn. split; [exact Hle | apply Hall; reflexivity].
      * intros [_ Hdone]. apply Hall in Hdone. discriminate.
      * reflexivity.
    + split; [reflexivity|]. split; [apply emitted_more; reflexivity|]. split.
      * intros [Hle _]. lia.
      * reflexivity.
  - split; [reflexivity|]. split; [apply emitted_more; reflexivity|]. reflexivity.
Qed.

(** ** Race game: the outcome of a round *)

(** X15. An answer that completes a round other than the last resolves it
    on all the answers recorded, in their order of arrival, the new one
    last: the new state is persisted, the round result is broadcast, the
    list is emptied and the next round is scheduled after the result
    delay.  When that timer fires the next round's parameters are
    broadcast if the room is then [active], and nothing happens if not. *)
Theorem race_round_then_next (w : World Reg) code pid color now room gs :
  raceGuard (reg w) code = Some (room, gs) ->
  hasAnswered w code pid = false ->
  (connectedCount room <= length (recorded w code) + 1)%nat ->
  let answers :=
    recorded w code ++ [{| a_playerId := pid; a_color := color; a_timestamp := now |}] in
  let newState := processRound gs answers in
  cr_phase newState <> phase_finished ->
  let i := nextTimer w in
  let w1 := exec (on_color_race_submit_answer code pid color now) w in
  let w2 := step w1 (EvTimer i) in
  reg w1 = updateGameState (reg w) code (GColorRace newState) /\
  emitted w w1 = [(ToRoom code, roundResultMsg room newState)] /\
  recorded w1 code = [] /\
  timers w1 !! i = Some {| t_delay := ROUND_RESULT_DELAY_MS; t_repeat := false;
                           t_callback := CbNextRound code newState |} /\
  reg w2 = reg w1 /\
  emitted w1 w2 =
    (if roomIsActive (reg w1) code
     then [(ToRoom code,
            MColorRaceNewRound (cr_round newState) (cr_currentColor newState)
              (cr_totalRounds newState))]
     else []).
Proof.
  intros Hg Hdup Hle answers newState Hphase i w1 w2.
  assert (Hw1 : w1 =
    mkWorld (updateGameState (reg w) code (GColorRace newState)) (disconnectTimeouts w)
      (<[code := []]> (<[code := answers]> (roundAnswers w)))
      (<[i := {| t_delay := ROUND_RESULT_DELAY_MS; t_repeat := false;
                 t_callback := CbNextRound code newState |}]> (timers w))
      (S i) (sockets w) (out w ++ [(ToRoom code, roundResultMsg room newState)])).
  { unfold w1. revert Hg Hdup Hle.
    unfold raceGuard, hasAnswered, recorded, connectedCount,
      on_color_race_submit_answer, processColorRaceRound, roundResultMsg.
    msimpl. intros Hg Hdup Hle.
    destruct (getRoom (reg w) code) as [room'|]; [|discriminate].
    destruct (bool_decide (r_status room' ≠ active)); [discriminate|].
    destruct (r_gameState room') as [[?|gs']|]; try discriminate.
    injection Hg as -> ->. rewrite Hdup.
    rewrite (proj2 (Nat.leb_le _ _)) by (rewrite length_app; cbn; lia).
    wsimpl. fold (recorded w code). fold answers. fold newState.
    rewrite bool_decide_false by assumption. reflexivity. }
  assert (Hw2 : w2 = exec (run_callback i (CbNextRound code newState))
                       (mkWorld (reg w1) (disconnectTimeouts w1) (roundAnswers w1)
                          (delete i (timers w1)) (nextTimer w1) (sockets w1) (out w1))).
  { unfold w2. apply step_timeout with (delay := ROUND_RESULT_DELAY_MS).
    rewrite Hw1. wsimpl. apply lookup_insert_eq. }
  split; [rewrite Hw1; reflexivity|].
  split; [rewrite Hw1; apply emitted_more; reflexivity|].
  split; [rewrite Hw1; unfold recorded; wsimpl; rewrite lookup_insert_eq; reflexivity|].
  split; [rewrite Hw1; wsimpl; apply lookup_insert_eq|].
  rewrite Hw2. unfold roomIsActive, run_callback. msimpl.
  destruct (getRoom (reg w1) code) as [[[] ? ?]|]; wsimpl;
    (split; [reflexivity|]);
    first [apply emitted_more; reflexivity | apply emitted_none; reflexivity].
Qed.

(** X16. An answer that completes the last round, with a winner who is a
    player of the room: the round result and then the final result with
    the winner's name and the scores are broadcast, the status is set to
    [finished] after the state is persisted, the list is emptied, and no
    timer is scheduled. *)
Theorem race_last_round (w : World Reg) code pid color now room gs winnerId wp :
  raceGuard (reg w) code = Some (room, gs) ->
  hasAnswered w code pid = false ->
  (connectedCount room <= length (recorded w code) + 1)%nat ->
  let answers :=
    recorded w code ++ [{| a_playerId := pid; a_color := color; a_timestamp := now |}] in
  let newState := processRound gs answers in
  cr_phase newState = phase_finished ->
  determineWinner newState = Some winnerId ->
  findPlayer (r_players room) winnerId = Some wp ->
  let w' := exec (on_color_race_submit_answer code pid color now) w in
  reg w' = updateRoomStatus (updateGameState (reg w) code (GColorRace newState))
             code finished /\
  emitted w w' =
    [(ToRoom code, roundResultMsg room newState);
     (ToRoom code,
      MColorRaceGameFinished winnerId (p_displayName wp) (cr_scores newState))] /\
  recorded w' code = [] /\
  timers w' = timers w.
Proof.
  intros Hg Hdup Hle answers newState Hphase Hwin Hwp w'. unfold w'.
  revert Hg Hdup Hle.
  unfold raceGuard, hasAnswered, recorded, connectedCount,
    on_color_race_submit_answer, processColorRaceRound, roundResultMsg.
  msimpl. intros Hg Hdup Hle.
  destruct (getRoom (reg w) code) as [room'|]; [|discriminate].
  destruct (bool_decide (r_status room' ≠ active)); [discriminate|].
  destruct (r_gameState room') as [[?|gs']|]; try discriminate.
  injection Hg as -> ->. rewrite Hdup.
  rewrite (proj2 (Nat.leb_le _ _)) by (rewrite length_app; cbn; lia).
  wsimpl. fold (recorded w code). fold answers. fold newState.
  rewrite bool_decide_true by assumption. rewrite Hwin. cbn [findPlayerOpt].
  rewrite Hwp. wsimpl. rewrite lookup_insert_eq.
  repeat split; try reflexivity.
  apply emitted_more. rewrite <- app_assoc. reflexivity.
Qed.

(** X17. An answer that leaves the round open is appended to the list
    with the server's time and nothing else happens: nothing is emitted,
    the registry and the timers are untouched.  A further answer of the
    same player, whatever its color, then changes nothing: submitting
    twice is submitting once. *)
Theorem race_answer_idempotent (w : World Reg) code pid color now color' now' room gs :
  raceGuard (reg w) code = Some (room, gs) ->
  hasAnswered w code pid = false ->
  (length (recorded w code) + 1 < connectedCount room)%nat ->
  let w1 := exec (on_color_race_submit_answer code pid color now) w in
  recorded w1 code =
    recorded w code ++ [{| a_playerId := pid; a_color := color; a_timestamp := now |}] /\
  reg w1 = reg w /\ timers w1 = timers w /\ out w1 = out w /\
  exec (on_color_race_submit_answer code pid color' now') w1 = w1.
Proof.
  intros Hg Hdup Hlt w1.
  assert (Hw1 : w1 =
    mkWorld (reg w) (disconnectTimeouts w)
      (<[code := recorded w code ++
                 [{| a_playerId := pid; a_color := color; a_timestamp := now |}]]>
         (roundAnswers w))
      (timers w) (nextTimer w) (sockets w) (out w)).
  { unfold w1, exec. rewrite (race_submit_recorded w code pid color now room gs)
      by assumption. reflexivity. }
  rewrite Hw1. unfold recorded at 1. wsimpl. rewrite lookup_insert_eq.
  repeat split; try reflexivity.
  unfold exec. rewrite race_submit_duplicate; [reflexivity|].
  unfold hasAnswered, recorded. wsimpl. rewrite lookup_insert_eq.
  change (default [] (Some ?l)) with l.
  rewrite existsb_app. cbn [existsb a_playerId]. rewrite bool_decide_true by reflexivity.
  apply orb_true_r.
Qed.

(** ** What an event leaves alone *)

(** X18. A socket's session is changed only by an event that arrives on
    that very socket, and only by a connection, a join, a leave or a
    disconnect: the start request, the game submissions and every timer,
    the removal of a player after the grace period included, leave all
    sessions as they are. *)
Theorem sessions_frame (w : World Reg) (ev : Event) :
  match ev with
  | EvConnect sid _ | EvJoinRoomSocket sid _ _ | EvLeaveRoom sid _ _ | EvDisconnect sid =>
    forall sid', sid' <> sid -> sockets (step w ev) !! sid' = sockets w !! sid'
  | _ => sockets (step w ev) = sockets w
  end.
Proof.
  destruct ev as [sid cookie|sid code pid|sid code pid|sid code pid
                 |sid code pid color now|sid code pid sequence
                 |sid code pid color idx|sid|i];
    unfold step, handle, on_socket, on_connection.
  - unfold handleAutoReconnect. msimpl. explore; intros sid' Hne';
      rewrite ?lookup_insert_ne by congruence; reflexivity.
  - unfold on_join_room_socket. msimpl. explore; intros sid' Hne';
      rewrite ?lookup_insert_ne by congruence; reflexivity.
  - unfold on_leave_room. msimpl. explore; intros sid' Hne';
      rewrite ?lookup_insert_ne by congruence; reflexivity.
  - unfold on_start_game, startCountdown. msimpl. explore; reflexivity.
  - unfold on_color_race_submit_answer, processColorRaceRound. msimpl. explore; reflexivity.
  - unfold on_simon_submit_sequence. msimpl. explore; reflexivity.
  - unfold on_simon_submit_input, finishSimonGame. msimpl. explore; reflexivity.
  - unfold handleDisconnect. msimpl. explore; intros sid' Hne';
      rewrite ?lookup_delete_ne by congruence; reflexivity.
  - unfold exec, fire. destruct (timers w !! i) as [[delay rep cb]|]; [|reflexivity].
    destruct cb; cbn [t_repeat t_callback];
      unfold run_callback, countdownTick, advanceSimonRound, showSimonSequence,
        finishSimonGame, bufferTimeoutFired, removalTimeoutFired, gameType;
      msimpl; explore; reflexivity.
Qed.

(** X19. Three kinds of event never write to the registry: a disconnect
    (the player is marked only when the buffer timer fires), a
    whole-sequence submission (its effect on the game is left to a timer),
    and the firing of a timer that paces a sequence or announces the next
    round of the race game. *)
Theorem registry_untouched (w : World Reg) :
  (forall sid, reg (step w (EvDisconnect sid)) = reg w) /\
  (forall sid code pid sequence,
     reg (step w (EvSimonSubmitSequence sid code pid sequence)) = reg w) /\
  (forall i,
     (forall t, timers w !! i = Some t -> pacesOnly (t_callback t) = true) ->
     reg (step w (EvTimer i)) = reg w).
Proof.
  split; [|split].
  - intros sid. unfold step, handle, on_socket, handleDisconnect. msimpl.
    explore; reflexivity.
  - intros sid code pid sequence.
    unfold step, handle, on_socket, on_simon_submit_sequence. msimpl.
    explore; reflexivity.
  - intros i Hpace. unfold step, handle, exec, fire.
    destruct (timers w !! i) as [[delay rep cb]|]; [|reflexivity].
    specialize (Hpace _ eq_refl). cbn [t_callback] in Hpace.
    destruct cb; try discriminate; cbn [t_repeat t_callback];
      unfold run_callback, showSimonSequence; msimpl; explore; reflexivity.
Qed.

(** ** From the countdown to the first sequence *)

(** X20. The countdown reaches zero in a room that is still there: the
    state the initializer builds is persisted and, when the 500 ms timer
    then fires, it is the sequence and the round of that very state that
    are shown; the show does not read the registry again. *)
Theorem countdown_then_first_sequence (w : World Reg) (i : nat) (code : string) room :
  timers w !! i = Some (countdownTimer code 0) ->
  (i < nextTimer w)%nat ->
  getRoom (updateRoomStatus (reg w) code active) code = Some room ->
  let gameState := initializeSimonGame (r_players room) in
  let w1 := step w (EvTimer i) in
  let w2 := step w1 (EvTimer (nextTimer w)) in
  reg w1 = updateGameState (updateRoomStatus (reg w) code active) code (GSimon gameState) /\
  emitted w1 w2 =
    [(ToRoom code, MSimonShowSequence (s_round gameState) (s_sequence gameState))] /\
  reg w2 = reg w1.
Proof.
  intros Hi Hlt Hroom gameState w1 w2.
  assert (Hw1 : w1 =
    mkWorld (updateGameState (updateRoomStatus (reg w) code active) code (GSimon gameState))
      (disconnectTimeouts w) (roundAnswers w)
      (alter (fun t => {| t_delay := t_delay t; t_repeat := t_repeat t;
                          t_callback := CbCountdown code (0 - 1) |}) i
         (<[nextTimer w := {| t_delay := 500; t_repeat := false;
                              t_callback := CbShowSimon code gameState |}]>
            (delete i (timers w))))
      (S (nextTimer w)) (sockets w) (out w ++ [(ToRoom code, MCountdown 0)])).
  { unfold w1, step, handle, exec, fire. rewrite Hi.
    cbn [t_repeat t_callback countdownTimer run_callback].
    unfold countdownTick, gameType. msimpl.
    rewrite bool_decide_true by reflexivity. wsimpl. rewrite Hroom. reflexivity. }
  split; [rewrite Hw1; reflexivity|].
  unfold w2. erewrite step_timeout
    by (rewrite Hw1; wsimpl; rewrite lookup_alter_ne by lia; apply lookup_insert_eq).
  rewrite Hw1. cbn [run_callback]. unfold showSimonSequence. msimpl. wsimpl.
  split; [apply emitted_more; reflexivity | reflexivity].
Qed.

(** ** Whole-sequence mode: one advance per right answer *)

Lemma simonGuard_advanceGuard (r : Reg) code pid room gs :
  simonGuard r code pid = Some (room, gs) -> advanceGuard r code = Some gs.
Proof.
  unfold simonGuard, advanceGuard.
  destruct (getRoom r code) as [room'|]; [|discriminate].
  destruct (bool_decide (r_status room' ≠ active)); [discriminate|].
  destruct (r_gameState room') as [[gs'|?]|]; try discriminate.
  destruct (s_playerStates gs' !! pid) as [[[] ?]|]; try discriminate.
  intros [= _ ->]. reflexivity.
Qed.

Lemma step_advance (w : World Reg) (i : nat) code gs :
  timers w !! i = Some {| t_delay := 2000; t_repeat := false;
                          t_callback := CbAdvanceSimon code |} ->
  advanceGuard (reg w) code = Some gs ->
  let newState := advanceToNextRound gs in
  step w (EvTimer i) =
    mkWorld (updateGameState (reg w) code (GSimon newState)) (disconnectTimeouts w)
      (roundAnswers w)
      (<[nextTimer w :=
           {| t_delay := Z.of_nat (length (s_sequence newState))
                         * (SHOW_COLOR_DURATION_MS + SHOW_COLOR_GAP_MS) + 500;
              t_repeat := false; t_callback := CbSequenceComplete code newState |}]>
         (delete i (timers w)))
      (S (nextTimer w)) (sockets w)
      (out w ++ [(ToRoom code,
                  MSimonShowSequence (s_round newState) (s_sequence newState))]).
Proof.
  intros Hi Hg newState. rewrite (step_timeout _ _ _ _ Hi).
  revert Hg. unfold advanceGuard, run_callback, advanceSimonRound, showSimonSequence.
  msimpl. wsimpl.
  destruct (getRoom (reg w) code) as [room|]; [|discriminate].
  destruct (bool_decide (r_status room ≠ active)); [discriminate|].
  destruct (r_gameState room) as [[gs'|?]|]; try discriminate.
  intros [= ->]. reflexivity.
Qed.

(** X21. In whole-sequence mode every right answer schedules a round
    advance of its own.  When two players both answer right before either
    timer fires, the first firing advances the current state and the
    second advances the state the registry then holds: the round is
    advanced twice and two sequences are shown. *)
Theorem two_right_answers_advance_twice (w : World Reg) code p1 p2 seq1 seq2
    room gs gs' :
  simonGuard (reg w) code p1 = Some (room, gs) ->
  simonGuard (reg w) code p2 = Some (room, gs) ->
  validateSequence gs seq1 = true ->
  validateSequence gs seq2 = true ->
  let first := advanceToNextRound gs in
  let second := advanceToNextRound gs' in
  advanceGuard (updateGameState (reg w) code (GSimon first)) code = Some gs' ->
  let i := nextTimer w in
  let w2 := exec (on_simon_submit_sequence code p2 seq2)
              (exec (on_simon_submit_sequence code p1 seq1) w) in
  let w4 := run w2 [EvTimer i; EvTimer (S i)] in
  reg w2 = reg w /\
  reg w4 = updateGameState (updateGameState (reg w) code (GSimon first))
             code (GSimon second) /\
  emitted w2 w4 =
    [(ToRoom code, MSimonShowSequence (s_round first) (s_sequence first));
     (ToRoom code, MSimonShowSequence (s_round second) (s_sequence second))].
Proof.
  intros Hg1 Hg2 Hv1 Hv2 first second Hnext i w2 w4.
  set (advance := {| t_delay := 2000; t_repeat := false;
                     t_callback := CbAdvanceSimon code |}).
  assert (Hw2 : w2 =
    mkWorld (reg w) (disconnectTimeouts w) (roundAnswers w)
      (<[S i := advance]> (<[i := advance]> (timers w))) (S (S i)) (sockets w)
      ((out w ++ [(ToRoom code, MSimonResult p1 (playerName room p1) true (s_sequence gs))])
       ++ [(ToRoom code, MSimonResult p2 (playerName room p2) true (s_sequence gs))])).
  { unfold w2, exec.
    rewrite (simon_submit_sequence_accepted w code p1 seq1 room gs Hg1), Hv1. cbn [snd].
    erewrite simon_submit_sequence_accepted by (wsimpl; exact Hg2).
    rewrite Hv2. reflexivity. }
  unfold w4, run. cbn [foldl]. rewrite Hw2.
  erewrite (step_advance _ i code gs);
    [|wsimpl; rewrite lookup_insert_ne by lia; apply lookup_insert_eq
     |wsimpl; eapply simonGuard_advanceGuard, Hg1].
  cbv zeta. fold first.
  erewrite (step_advance _ (S i) code gs');
    [|wsimpl; rewrite lookup_insert_ne, lookup_delete_ne by lia; apply lookup_insert_eq
     |wsimpl; exact Hnext].
  cbv zeta. fold second. wsimpl.
  split; [reflexivity|]. split; [reflexivity|].
  apply emitted_more. wsimpl. rewrite <- app_assoc. reflexivity.
Qed.

(** ** The key of a grace entry *)

(** X22. The key of the grace table separates players: two pairs of room
    code and player get the same key only if they are the same pair,
    provided the room codes have no colon in them.  With a colon in a room
    code two different pairs can share a key. *)
Theorem timeoutKey_separates (c1 c2 p1 p2 : string) :
  (noColon c1 = true -> noColon c2 = true ->
   timeoutKey c1 p1 = timeoutKey c2 p2 -> c1 = c2 /\ p1 = p2) /\
  timeoutKey "a:b" "c" = timeoutKey "a" "b:c".
Proof.
  split; [|reflexivity].
  unfold timeoutKey.
  assert (Hnil : forall x : string, "" +:+ x = x) by reflexivity.
  assert (Hcons : forall a (s x : string), String a s +:+ x = String a (s +:+ x))
    by reflexivity.
  revert c2.
  induction c1 as [|a c1 IH]; intros [|b c2]; cbn [noColon];
    rewrite ?Hnil, ?Hcons, ?Hnil; intros H1' H2' Heq.
  - injection Heq as ->. auto.
  - injection Heq as <- _. apply andb_true_iff in H2' as [Hc _].
    apply negb_true_iff, bool_decide_eq_false in Hc. destruct Hc. reflexivity.
  - injection Heq as -> _. apply andb_true_iff in H1' as [Hc _].
    apply negb_true_iff, bool_decide_eq_false in Hc. destruct Hc. reflexivity.
  - injection Heq as -> Heq. apply andb_true_iff in H1' as [_ H1'].
    apply andb_true_iff in H2' as [_ H2'].
    destruct (IH c2 H1' H2' Heq) as [-> ->]. auto.
Qed.

(** ** Rebind in the second stage of the grace period *)

(** X23. A bound socket disconnects, the buffer timer fires, and the
    player then comes back on a fresh socket with a valid session token
    before the removal timer fires: the room has heard of the
    disconnection and now hears of the reconnection, the new socket is
    sent a room state (whose content is left to the registry), the removal
    timer is cancelled and the key's entry dropped, the registry is told
    the new socket after the disconnection, and the cancelled removal
    firing later does nothing, so the player is not removed. *)
Theorem reconnect_before_removal (w : World Reg) (sid sid2 : string) (s : Session)
    pid code token payload room player :
  sockets w !! sid = Some s ->
  truthy (playerId s) = Some pid ->
  truthy (gameCode s) = Some code ->
  sockets w !! sid2 = None ->
  token <> "" ->
  verifyToken token = Some payload ->
  tk_playerId payload = pid ->
  tk_gameCode payload = code ->
  let r1 := markPlayerDisconnected (reg w) code pid in
  getRoom r1 code = Some room ->
  findPlayer (r_players room) pid = Some player ->
  let i := nextTimer w in
  let w' := run w [EvDisconnect sid; EvTimer i; EvConnect sid2 (Some token)] in
  reg w' = updateSocketId r1 code pid sid2 /\
  (exists state,
     emitted w w' = [(ToRoom code, MPlayerDisconnected pid (displayName s));
                     (ToOthers sid2 code, MPlayerReconnected pid (tk_displayName payload));
                     (ToSocket sid2, MRoomState state)]) /\
  disconnectTimeouts w' !! timeoutKey code pid = None /\
  timers w' !! i = None /\ timers w' !! S i = None /\
  step w' (EvTimer (S i)) = w'.
Proof.
  intros Hsock Hp Hc Hsock2 Htok Hv Hpid Hcode r1 Hroom Hfind i w'.
  assert (Hne : sid <> sid2) by (intros ->; congruence).
  set (B := {| t_delay := DISCONNECT_BUFFER_MS; t_repeat := false;
               t_callback := CbBuffer code pid (displayName s) |}).
  set (R := {| t_delay := DISCONNECT_GRACE_MS; t_repeat := false;
               t_callback := CbRemoval code pid (displayName s) |}).
  assert (Hw' : exists socks,
    w' = mkWorld (updateSocketId r1 code pid sid2)
           (delete (timeoutKey code pid)
              (<[timeoutKey code pid := S i]>
                 (<[timeoutKey code pid := i]> (disconnectTimeouts w))))
           (roundAnswers w)
           (delete (S i) (<[S i := R]> (delete i (<[i := B]> (timers w)))))
           (S (S i)) socks
           (out w ++ [(ToRoom code, MPlayerDisconnected pid (displayName s));
                      (ToOthers sid2 code,
                       MPlayerReconnected pid (tk_displayName payload));
                      (ToSocket sid2, MRoomState room)])).
  { unfold w', run. cbn [foldl].
    rewrite (step_disconnect_bound w sid s pid code) by assumption. fold i.
    erewrite (step_timeout _ i) by (wsimpl; apply lookup_insert_eq).
    cbn [run_callback]. unfold bufferTimeoutFired. msimpl. wsimpl. fold r1 B R.
    unfold step, handle, on_connection, exec. wsimpl.
    rewrite lookup_delete_ne, Hsock2 by assumption.
    unfold handleAutoReconnect. msimpl. cbn [truthy].
    rewrite bool_decide_false by assumption. rewrite Hv, Hpid, Hcode. wsimpl.
    rewrite Hroom, Hfind. wsimpl. rewrite lookup_insert_eq. wsimpl.
    eexists. rewrite <- !app_assoc. reflexivity. }
  destruct Hw' as [socks ->]. wsimpl.
  rewrite !lookup_delete_eq.
  rewrite lookup_delete_ne, lookup_insert_ne, lookup_delete_eq by lia.
  split; [reflexivity|].
  split; [eexists; apply emitted_more; reflexivity|].
  split; [reflexivity|]. split; [reflexivity|]. split; [reflexivity|].
  apply step_dead_timer. wsimpl. apply lookup_delete_eq.
Qed.

End Conduct.

(** * The end of the sequence game *)

Section EndOfGame.
Context {Reg : Type}.
Context `{!GameService Reg, !SimonLogic, !ColorRaceLogic, !Auth, !Constants}.

Local Open Scope Z_scope.
Local Open Scope list_scope.

Ltac tsimpl :=
  unfold session_of, erase, observe in *;
  cbn [fst snd reg disconnectTimeouts roundAnswers timers nextTimer sockets out
       getRoom updateSocketId removePlayer updateRoomStatus updateGameState
       markPlayerDisconnected removeIfStillDisconnected cleanupDeadRooms traced
       erase observe];
  cbv beta.

Ltac texplore :=
  repeat (tsimpl;
          match goal with
          | |- context [match ?x with _ => _ end] =>
            lazymatch x with
            | context [out _] => fail
            | _ => destruct x eqn:?
            end
          end);
  tsimpl.

(** The log changes nothing: without it, a step over the logging registry
    is the step over the registry itself. *)
Lemma step_erasure (W : World (Reg * list RegCall)) (ev : Event) :
  erase (stepT W ev) = step (erase W) ev.
Proof.
  destruct W as [[r l] dt ra tm nt sk o].
  destruct ev as [sid cookie|sid code pid|sid code pid|sid code pid
                 |sid code pid color now|sid code pid sequence
                 |sid code pid color idx|sid|i];
    unfold stepT, step, handle, on_socket, on_connection; cbn [erase reg fst].
  - unfold handleAutoReconnect, session_of. msimpl. texplore; reflexivity.
  - unfold on_join_room_socket, session_of. msimpl. texplore; reflexivity.
  - unfold on_leave_room, session_of. msimpl. texplore; reflexivity.
  - unfold on_start_game, startCountdown. msimpl. texplore; reflexivity.
  - unfold on_color_race_submit_answer, processColorRaceRound. msimpl.
    texplore; reflexivity.
  - unfold on_simon_submit_sequence. msimpl. texplore; reflexivity.
  - unfold on_simon_submit_input, finishSimonGame. msimpl. texplore; reflexivity.
  - unfold handleDisconnect, session_of. msimpl. texplore; reflexivity.
  - unfold exec, fire. tsimpl.
    destruct (tm !! i) as [[delay rep cb]|]; [|reflexivity].
    destruct cb; cbn [t_repeat t_callback];
      unfold run_callback, countdownTick, advanceSimonRound, showSimonSequence,
        finishSimonGame, bufferTimeoutFired, removalTimeoutFired, gameType;
      msimpl; texplore; reflexivity.
Qed.


Lemma erase_observe (w : World Reg) : erase (observe w) = w.
Proof. destruct w. reflexivity. Qed.

(** The calls logged for a step are those of the step itself. *)
Lemma calls_faithful (w : World Reg) (ev : Event) :
  erase (stepT (observe w) ev) = step w ev.
Proof. rewrite step_erasure, erase_observe. reflexivity. Qed.

(** *** Pending eliminations *)








(** *** Where the status [finished] is written *)





End EndOfGame.

(** * The properties on concrete runs *)

Section Scenarios.
Import Demo.
#[local] Existing Instances service simonLogic colorRaceLogic auth constants.

Local Open Scope Z_scope.
Local Open Scope list_scope.

(** C9 on a socket that connected without a cookie. *)
Lemma handleDisconnect_unbound_witness :
  handleDisconnect "s1" guest = (Some tt, guest).
Proof. apply (handleDisconnect_unbound guest "s1"). left. reflexivity. Defined.

(** C10 on a leave request for a player the room does not have. *)
Lemma leave_room_clears_session_witness :
  out (exec (on_leave_room "s1" "R" "Z") guest) = out guest.
Proof.
  apply (proj1 (proj2 (leave_room_clears_session guest "s1" "R" "Z"))).
  reflexivity.
Defined.

(** C8 on the lobby, started by its host. *)
Lemma start_game_countdown_witness :
  out (run (exec (on_start_game "s1" "R" "A") hostConnected) (replicate 4 (EvTimer 1))) =
  out hostConnected ++ countdownMsgs "R" [3; 2; 1; 0].
Proof.
  destruct (start_game_countdown hostConnected "s1" "R" "A") as [Hok _].
  edestruct Hok as (_ & Hout & _); [vm_compute; reflexivity..|].
  exact Hout.
Defined.

(** ** Sequence game *)



(** C4 (as amended) on a game that has just started. *)
Lemma simon_submission_gate_witness :
  emitted simonStarted (exec (on_simon_submit_sequence "R" "A" [red]) simonStarted) =
  [(ToRoom "R", MSimonResult "A" "Ann" true [red])].
Proof.
  destruct (simon_submission_gate simonStarted "R" "A") as [_ Hacc].
  edestruct Hacc as [Hseq _]; [vm_compute; reflexivity|].
  exact (proj1 (Hseq [red])).
Defined.

(** C4 as first stated fails on this run.  Right after the countdown
    nothing of round 1 has been broadcast, not
    the sequence and not the input phase, and Ann's whole-sequence
    submission is validated and its result broadcast. *)
Lemma submission_before_input_phase :
  existsb isInputPhase (out simonStarted) = false /\
  emitted simonStarted earlySubmission =
  [(ToRoom "R", MSimonResult "A" "Ann" true [red])].
Proof. vm_compute. auto. Qed.

(** C6 (as amended) on Ann's step after she completed the round. *)
Lemma completed_player_step_witness :
  head (emitted annCompleted (exec (on_simon_submit_input "R" "A" green 1) annCompleted)) =
  Some (ToRoom "R", MSimonPlayerEliminated "A" "Ann" "wrong_color").
Proof.
  edestruct (completed_player_step annCompleted "R" "A" green 1) as [Hwrong _];
    [vm_compute; reflexivity | vm_compute; reflexivity | vm_compute; discriminate |].
  destruct Hwrong as [Hem _]; [vm_compute; reflexivity|].
  exact Hem.
Defined.

(** C6 as first stated fails on this run.  Ann has completed round 1
    (her pointer equals the sequence length and
    she is [playing]); her next step of the same round eliminates her. *)
Lemma completed_player_eliminated :
  playerStateOf annCompleted "R" "A" =
    Some {| ps_status := playing; ps_currentInputIndex := 1 |} /\
  (length ∘ s_sequence) <$> simonStateOf annCompleted "R" = Some 1%nat /\
  existsb (isEliminated "A") (emitted annCompleted annStepsAgain) = true /\
  ps_status <$> playerStateOf annStepsAgain "R" "A" = Some eliminated.
Proof. vm_compute. auto. Qed.

(** ** Delayed callbacks *)

(** X24 on a round advance after the game was finished. *)
Lemma refetching_callbacks_witness :
  run_callback 9 (CbAdvanceSimon "R") twoWrong = (Some tt, twoWrong).
Proof.
  apply (proj1 (refetching_callbacks twoWrong 9 "R")). reflexivity.
Defined.

(** C7. The delayed elimination of whole-sequence mode does not re-fetch.
    Ann and Bob each submit a wrong whole sequence within the delay.
    Ann's elimination fires first and finishes the game.  Bob's,
    scheduled before, still fires: it does not look at the room (whose
    status is no longer [active]), persists the state it captured with Bob
    eliminated, in which Ann is [playing] again, and broadcasts
    game-finished a second time. *)
Theorem stale_elimination_callback :
  statusOf twoWrong "R" = Some finished /\
  ps_status <$> playerStateOf twoWrong "R" "A" = Some eliminated /\
  existsb isSimonGameFinished (emitted twoWrong staleFired) = true /\
  ps_status <$> playerStateOf staleFired "R" "A" = Some playing.
Proof. vm_compute. auto. Qed.

(** ** Grace timers *)

(** C2. Ann's two sockets disconnect one after the other: the second
    disconnect points the entry of key [R:A] at its own buffer timer and
    leaves the first buffer timer live in the queue, so two timers for the
    one key are live at once.  When she reconnects with her token only the
    timer the entry points at is cancelled; the first one stays live. *)
Theorem two_live_buffer_timers :
  t_callback <$> timers twoTabsClosed !! 1%nat = Some (CbBuffer "R" "A" (Some "Ann")) /\
  t_callback <$> timers twoTabsClosed !! 2%nat = Some (CbBuffer "R" "A" (Some "Ann")) /\
  disconnectTimeouts twoTabsClosed !! timeoutKey "R" "A" = Some 2%nat /\
  disconnectTimeouts backAfterTwoTabs !! timeoutKey "R" "A" = None /\
  timers backAfterTwoTabs !! 2%nat = None /\
  t_callback <$> timers backAfterTwoTabs !! 1%nat = Some (CbBuffer "R" "A" (Some "Ann")).
Proof. vm_compute. auto 7. Qed.

(** C3. Ann rebinds by an explicit join request while her buffer timer
    is pending: the entry of key [R:A] and the timer stay, and when the
    buffer timer and then the removal timer fire she is removed and the
    player-left broadcast is sent, although her new socket is bound. *)
Theorem explicit_rejoin_is_evicted :
  playerId (session_of rejoined "s2") = Some "A" /\
  disconnectTimeouts rejoined !! timeoutKey "R" "A" = Some 1%nat /\
  t_callback <$> timers rejoined !! 1%nat = Some (CbBuffer "R" "A" (Some "Ann")) /\
  existsb (isPlayerLeft "A") (out rejoined) = false /\
  existsb (isPlayerLeft "A") (out graceElapsed) = true.
Proof. vm_compute. auto 6. Qed.

(** ** Race game *)

(** C1. Bob, the only player left, answers the last round: the round is
    resolved (the result is broadcast), the winner by score is Ann, who is
    no longer a player of the room, the game-finished step throws, and the
    recorded answers are not reset; the room stays [active]. *)
Theorem last_round_keeps_answers :
  existsb isRoundResult (emitted annLeft bobAnswered) = true /\
  recorded bobAnswered "R" =
    [{| a_playerId := "B"; a_color := blue; a_timestamp := 1000 |}] /\
  statusOf bobAnswered "R" = Some active.
Proof. vm_compute. auto. Qed.

End Scenarios.

(** * The conduct of the handlers on concrete runs *)

Section Runs.
Import Demo.
#[local] Existing Instances service simonLogic colorRaceLogic auth constants.

Local Open Scope Z_scope.
Local Open Scope list_scope.

Ltac holds := first [ vm_compute; reflexivity | vm_compute; lia
                    | vm_compute; discriminate | discriminate ].

(** X1 on a cookie whose token the verifier rejects. *)
Lemma autoReconnect_fails_silently_witness :
  handleAutoReconnect "s1" (Some "bogus") (initD lobby) = (Some tt, initD lobby).
Proof.
  apply autoReconnect_fails_silently. right. right. left.
  exists "bogus". split; reflexivity.
Defined.

(** X2 on Ann's token in the lobby. *)
Lemma autoReconnect_binds_witness :
  boundTo (session_of (exec (handleAutoReconnect "s1" (Some "tok-A")) (initD lobby)) "s1")
    "A" "R" "Ann".
Proof.
  edestruct (autoReconnect_binds (initD lobby) "s1" "tok-A") as (_ & Hb & _);
    [holds..|].
  exact Hb.
Defined.

(** X6 on the host's socket: she disconnects and does not come back. *)
Lemma grace_period_elapses_witness :
  disconnectTimeouts (run hostConnected [EvDisconnect "s1"; EvTimer 1; EvTimer 2])
    !! timeoutKey "R" "A" = None.
Proof.
  edestruct (grace_period_elapses hostConnected "s1") as (_ & _ & Hk & _); [holds..|].
  exact Hk.
Defined.

(** X7 on the host's socket: she comes back on a second socket. *)
Lemma reconnect_within_buffer_witness :
  timers (run hostConnected [EvDisconnect "s1"; EvConnect "s2" (Some "tok-A")]) !! 1%nat
  = None.
Proof.
  edestruct (fun s pid code =>
               reconnect_within_buffer hostConnected "s1" "s2" s pid code "tok-A")
    as (_ & _ & _ & Ht & _);
    [holds..|].
  exact Ht.
Defined.

(** X11 on the sweeper's interval across a disconnect. *)
Lemma pending_timers_frame_witness :
  timers (step (run (initWorld lobby) [EvConnect "s1" (Some "tok-A")]) (EvDisconnect "s1"))
    !! 0%nat = Some cleanupTimer.
Proof.
  destruct (pending_timers_frame lobby [EvConnect "s1" (Some "tok-A")]
              (EvDisconnect "s1") 0 cleanupTimer)
    as [Hkept | [[Hev _] | [Hgrace _]]]; [holds | exact Hkept | discriminate..].
Defined.

(** X14 on Ann's right step in a game of three. *)
Lemma round_advance_condition_witness :
  emitted simonStarted (exec (on_simon_submit_input "R" "A" red 0) simonStarted) =
  [(ToRoom "R", MSimonInputCorrect "A" 0)].
Proof.
  edestruct (round_advance_condition simonStarted "R" "A" red 0) as (_ & Hem & _);
    [holds..|].
  exact Hem.
Defined.

(** X15 on Bob's answer completing the first of two rounds. *)
Lemma race_round_then_next_witness :
  recorded (exec (on_color_race_submit_answer "R" "B" blue 20) (annAnswered raceRoom1)) "R"
  = [].
Proof.
  edestruct (race_round_then_next (annAnswered raceRoom1) "R" "B" blue 20)
    as (_ & _ & Hrec & _); [holds..|].
  exact Hrec.
Defined.

(** X16 on Bob's answer completing the last round, Ann winning. *)
Lemma race_last_round_witness :
  recorded (exec (on_color_race_submit_answer "R" "B" blue 20) (annAnswered raceRoom)) "R"
  = [].
Proof.
  edestruct (race_last_round (annAnswered raceRoom) "R" "B" blue 20)
    as (_ & _ & Hrec & _); [holds..|].
  exact Hrec.
Defined.

(** X17 on Ann's first answer with Bob still to answer. *)
Lemma race_answer_idempotent_witness :
  exec (on_color_race_submit_answer "R" "A" blue 11)
    (exec (on_color_race_submit_answer "R" "A" red 10) (raceOpen raceRoom1))
  = exec (on_color_race_submit_answer "R" "A" red 10) (raceOpen raceRoom1).
Proof.
  edestruct (race_answer_idempotent (raceOpen raceRoom1) "R" "A" red 10 blue 11)
    as (_ & _ & _ & _ & Hsame); [holds..|].
  exact Hsame.
Defined.

(** X20 on the lobby's countdown. *)
Lemma countdown_then_first_sequence_witness :
  emitted (step countdownAtZero (EvTimer 1))
    (step (step countdownAtZero (EvTimer 1)) (EvTimer 2)) =
  [(ToRoom "R", MSimonShowSequence 1 [red])].
Proof.
  edestruct (countdown_then_first_sequence countdownAtZero 1 "R") as (_ & Hem & _);
    [holds..|].
  exact Hem.
Defined.

(** X21 on Ann and Bob both entering the sequence of round 1. *)
Lemma two_right_answers_advance_twice_witness :
  emitted
    (exec (on_simon_submit_sequence "R" "B" [red])
       (exec (on_simon_submit_sequence "R" "A" [red]) simonStarted))
    (run (exec (on_simon_submit_sequence "R" "B" [red])
            (exec (on_simon_submit_sequence "R" "A" [red]) simonStarted))
       [EvTimer 3; EvTimer 4]) =
  [(ToRoom "R", MSimonShowSequence 2 [red; green]);
   (ToRoom "R", MSimonShowSequence 3 [red; green; blue])].
Proof.
  edestruct (two_right_answers_advance_twice simonStarted "R" "A" "B" [red] [red])
    as (_ & _ & Hem); [holds..|].
  exact Hem.
Defined.

(** X23 on the host's socket: she comes back after the buffer timer. *)
Lemma reconnect_before_removal_witness :
  timers (run hostConnected
            [EvDisconnect "s1"; EvTimer 1; EvConnect "s2" (Some "tok-A")]) !! 2%nat
  = None.
Proof.
  edestruct (fun s pid code =>
               reconnect_before_removal hostConnected "s1" "s2" s pid code "tok-A")
    as (_ & _ & _ & _ & Ht & _); [holds..|].
  exact Ht.
Defined.

End Runs.
